(** * summer: the TB model helpers and the calibration driver

    A shallow embedding of [python_source_code/tb_model.py] and
    [python_source_code/calibration.py].  Python floats are read as exact
    rationals ([Q]); a Python exception is a [Raise] result; dictionaries
    are [gmap]s keyed by strings; objects that are copied or mutated
    through references live in an explicit store. *)

From Stdlib Require Import QArith Ascii String.
From stdpp Require Import base option list strings gmap.

Open Scope string_scope.
Open Scope list_scope.
Open Scope nat_scope.

(** ** Python results *)

Module Py.

Inductive exn : Type :=
| ZeroDivisionError
| IndexError
| KeyError
| TypeError
| ValueError
| AttributeError
| UnboundLocalError.

Inductive result (A : Type) : Type :=
| Ok (a : A)
| Raise (e : exn).
Arguments Ok {A} a.
Arguments Raise {A} e.

#[global] Instance result_ret : MRet result := @Ok.
#[global] Instance result_bind : MBind result := λ A B f r,
  match r with
  | Ok a => f a
  | Raise e => Raise e
  end.
#[global] Instance result_fmap : FMap result := λ A B f r,
  match r with
  | Ok a => Ok (f a)
  | Raise e => Raise e
  end.

Definition is_Ok {A} (r : result A) : Prop := ∃ a, r = Ok a.

(** [d[k]] on a dictionary: [KeyError] when the key is absent. *)
Definition getitem {V} (d : gmap string V) (k : string) : result V :=
  match d !! k with
  | Some v => Ok v
  | None => Raise KeyError
  end.

(** [l[i]] on a list, for a non-negative index. *)
Definition index {A} (l : list A) (i : nat) : result A :=
  match l !! i with
  | Some a => Ok a
  | None => Raise IndexError
  end.

(** [for x in l: ...] where the body may raise: the first exception
    stops the loop. *)
Fixpoint for_each {A B} (f : A → result B) (l : list A) : result (list B) :=
  match l with
  | [] => Ok []
  | x :: l' => y ← f x; ys ← for_each f l'; Ok (y :: ys)
  end.

(** [s.split(sep)] for a one-character separator: the pieces between
    the occurrences of [sep]; always at least one piece. *)
Fixpoint split (sep : ascii) (s : string) : list string :=
  match s with
  | EmptyString => [EmptyString]
  | String c s' =>
      if decide (c = sep) then EmptyString :: split sep s'
      else match split sep s' with
           | [] => [String c EmptyString]
           | w :: ws => String c w :: ws
           end
  end.

(** Does the character occur in the string? *)
Fixpoint occurs (c : ascii) (s : string) : bool :=
  match s with
  | EmptyString => false
  | String c' s' => if decide (c' = c) then true else occurs c s'
  end.

(** *** Effects: a store threaded through calls that may raise

    A computation takes the current world and returns its outcome
    together with the world it leaves behind; the world survives an
    exception. *)
Definition eff (W A : Type) : Type := W → result A * W.

#[global] Instance eff_ret {W} : MRet (eff W) := λ A a w, (Ok a, w).
#[global] Instance eff_bind {W} : MBind (eff W) := λ A B f m w,
  match m w with
  | (Ok a, w') => f a w'
  | (Raise e, w') => (Raise e, w')
  end.

Definition get {W} : eff W W := λ w, (Ok w, w).
Definition modify {W} (f : W → W) : eff W unit := λ w, (Ok tt, f w).
Definition lift {W A} (r : result A) : eff W A := λ w, (r, w).
Definition raise {W A} (e : exn) : eff W A := lift (Raise e).

(** [for x in l: body(x)] *)
Fixpoint for_in {W A} (l : list A) (body : A → eff W unit) : eff W unit :=
  match l with
  | [] => mret tt
  | x :: l' => body x ≫= λ _, for_in l' body
  end.

(** Successive calls of one function, whatever each call returns; the
    outcomes are collected in call order. *)
Fixpoint evaluations {W A B} (f : A → eff W B) (args : list A) (w : W)
    : list (result B) * W :=
  match args with
  | [] => ([], w)
  | x :: args' =>
      let '(r, w1) := f x w in
      let '(rs, w2) := evaluations f args' w1 in
      (r :: rs, w2)
  end.

(** A function is stateless when its outcome depends on its argument
    alone and it hands the world back as it found it. *)
Definition stateless {W A B} (f : A → eff W B) : Prop :=
  ∃ g : A → result B, ∀ x w, f x w = (g x, w).

(** Evaluating [f] at [t], then at any arguments in any order, then at
    [t] again: both evaluations at [t] agree and no evaluation changes the
    world. *)
Definition repeatable {W A B} (f : A → eff W B) : Prop :=
  ∀ (between : list A) (t : A) (w : W),
    let '(r1, w1) := f t w in
    let '(_, w2) := evaluations f between w1 in
    let '(r2, w3) := f t w2 in
    r1 = r2 ∧ w1 = w ∧ w2 = w ∧ w3 = w.

End Py.
Import Py.

(** ** tb_model.py: functions of functions *)

Module TbModel.

Section Closures.
(** The returned lambdas are written over an arbitrary monad [M] of
    effects, so that the same definition is read as a partial
    function ([M := result]) and as a state-passing one. *)
Context {M : Type → Type} `{!MBind M}.

Definition return_function_of_function {A B C : Type}
    (inner_function : A → M B) (outer_function : B → M C) : A → M C :=
  λ value, inner_function value ≫= outer_function.
End Closures.

(** [lambda proportion: proportion * competing_flows / (1.0 - proportion)];
    float division by zero raises. *)
Definition convert_competing_proportion_to_rate (competing_flows : Q)
    : Q → result Q :=
  λ proportion,
    if Qeq_bool (1 - proportion) 0 then Raise ZeroDivisionError
    else Ok (proportion * competing_flows / (1 - proportion))%Q.

(** *** Compartment names

    Modelled from the spec: the stratification engine (summer_model.py)
    that builds the names is not among the source files.  A name is the
    base label followed, for each applied stratification in application
    order, by the delimiter [X], the stratification name, an underscore
    and the stratum value. *)
Definition stratum_piece (sv : string * string) : string :=
  sv.1 +:+ "_" +:+ sv.2.

Definition stratum_suffix (sv : string * string) : string :=
  "X" +:+ stratum_piece sv.

Definition compartment_name (base : string) (applied : list (string * string))
    : string :=
  foldl (λ name sv, name +:+ stratum_suffix sv) base applied.

(** A label is plain when it holds neither the delimiter nor an
    underscore. *)
Definition plain (s : string) : Prop :=
  occurs "X" s = false ∧ occurs "_" s = false.

(** The parts of a name that can be told apart again: no delimiter in the
    base label, plain stratification names and stratum values. *)
Definition well_named (base : string) (applied : list (string * string))
    : Prop :=
  occurs "X" base = false ∧ Forall (λ sv, plain sv.1 ∧ plain sv.2) applied.

(** Stratification names that do not collide with one another or with the
    columns the consumer itself writes and reads. *)
Definition usable_strata (strata : list string) : Prop :=
  NoDup strata ∧ ("compartment" ∉ strata) ∧ ("variable" ∉ strata).

(** *** unpivot_outputs *)

Inductive cell : Type :=
| CNum (x : Q)
| CStr (s : string).

(** A data frame is read row by row; a row maps column labels to cells. *)
Abbreviation row := (gmap string cell).
Abbreviation dataframe := (list (gmap string cell)).

Record model_object : Type := {
  outputs : list (list Q);
  compartment_names : list string;
  times : list Q;
  strata : list string
}.

(** [.split] is a method of strings only. *)
Definition as_str (c : cell) : result string :=
  match c with
  | CStr s => Ok s
  | CNum _ => Raise AttributeError
  end.

(** [pd.DataFrame(outputs, columns=compartment_names)], then the
    [times] column, then [melt("times")]: one row per compartment
    column and time, compartment columns in order. *)
Definition melt (model : model_object) : result dataframe :=
  if bool_decide (Forall (λ r, length r = length (compartment_names model))
                         (outputs model)
                  ∧ length (outputs model) = length (times model))
  then
    Ok (mjoin (imap (λ j name,
          if decide (name = "times") then []
          else imap (λ i t,
                 ({[ "times" := CNum t;
                     "variable" := CStr name;
                     "value" := CNum (default 0%Q
                                 (outputs model !! i ≫= (.!! j))) ]} : row))
                 (times model))
          (compartment_names model)))
  else Raise ValueError.

(** [output_dataframe.apply(f, axis=1)] *)
Definition apply_rows (f : row → result cell) (df : dataframe)
    : result (list cell) :=
  for_each f df.

(** [output_dataframe[name] = column] *)
Definition assign_column (name : string) (column : list cell) (df : dataframe)
    : dataframe :=
  zip_with (λ r c, <[name := c]> r) df column.

Definition column_name (strata : list string) (n_stratification : nat)
    : result string :=
  match n_stratification with
  | O => Ok "compartment"
  | S k => index strata k
  end.

(** [lambda row: row.variable.split("X")[n_stratification]] *)
Definition split_variable (n_stratification : nat) (r : row) : result cell :=
  v ← getitem r "variable";
  s ← as_str v;
  CStr <$> index (split "X" s) n_stratification.

(** [lambda row: row[column_name].split("_")[1]] *)
Definition split_stratum (column_name : string) (r : row) : result cell :=
  v ← getitem r column_name;
  s ← as_str v;
  CStr <$> index (split "_" s) 1.

(** The body of the loop over [range(len(strata) + 1)]. *)
Definition unpivot_step (strata : list string) (df : dataframe)
    (n_stratification : nat) : result dataframe :=
  name ← column_name strata n_stratification;
  column ← apply_rows (split_variable n_stratification) df;
  let df := assign_column name column df in
  if decide (0 < n_stratification) then
    column ← apply_rows (split_stratum name) df;
    Ok (assign_column name column df)
  else Ok df.

Fixpoint unpivot_loop (strata : list string) (ns : list nat) (df : dataframe)
    : result dataframe :=
  match ns with
  | [] => Ok df
  | n :: ns' => df' ← unpivot_step strata df n; unpivot_loop strata ns' df'
  end.

Definition unpivot_outputs (model : model_object) : result dataframe :=
  df ← melt model;
  df ← unpivot_loop (strata model) (seq 0 (length (strata model) + 1)) df;
  Ok (delete "variable" <$> (df : dataframe)).

(** The same loop followed on one row alone. *)
Definition unpivot_row_step (strata : list string) (r : row)
    (n_stratification : nat) : result row :=
  name ← column_name strata n_stratification;
  c ← split_variable n_stratification r;
  let r := <[name := c]> r in
  if decide (0 < n_stratification) then
    c ← split_stratum name r;
    Ok (<[name := c]> r)
  else Ok r.

Fixpoint unpivot_row (strata : list string) (ns : list nat) (r : row)
    : result row :=
  match ns with
  | [] => Ok r
  | n :: ns' => r' ← unpivot_row_step strata r n; unpivot_row strata ns' r'
  end.

(** *** Standardised flow functions

    [list_of_flows += [...]] extends the list it is given and returns
    it: the returned list is the argument followed by the new flows. *)
Abbreviation flow := (gmap string string).

Definition add_standard_latency_flows (list_of_flows : list flow) : list flow :=
  list_of_flows ++
  [ {[ "type" := "standard_flows"; "parameter" := "early_progression";
       "origin" := "early_latent"; "to" := "infectious" ]};
    {[ "type" := "standard_flows"; "parameter" := "stabilisation";
       "origin" := "early_latent"; "to" := "late_latent" ]};
    {[ "type" := "standard_flows"; "parameter" := "late_progression";
       "origin" := "late_latent"; "to" := "infectious" ]} ].

Definition add_standard_natural_history_flows (list_of_flows : list flow)
    : list flow :=
  list_of_flows ++
  [ {[ "type" := "standard_flows"; "parameter" := "recovery";
       "origin" := "infectious"; "to" := "recovered" ]};
    {[ "type" := "compartment_death"; "parameter" := "infect_death";
       "origin" := "infectious" ]} ].

Definition add_standard_infection_flows (list_of_flows : list flow) : list flow :=
  list_of_flows ++
  [ {[ "type" := "infection_frequency"; "parameter" := "beta";
       "origin" := "susceptible"; "to" := "early_latent" ]};
    {[ "type" := "infection_frequency"; "parameter" := "beta";
       "origin" := "recovered"; "to" := "early_latent" ]} ].

(** The flows of [build_working_tb_model] and
    [build_model_for_calibration], before the case detection flow. *)
Definition standard_flows : list flow :=
  add_standard_natural_history_flows
    (add_standard_latency_flows (add_standard_infection_flows [])).

Definition compartments : list string :=
  ["susceptible"; "early_latent"; "late_latent"; "infectious"; "recovered"].

Definition flow_types : list string :=
  ["infection_frequency"; "standard_flows"; "compartment_death"].

(** A flow record with a known type, a parameter name and an origin among
    the compartments. *)
Definition flow_ok (f : flow) : Prop :=
  (∃ ty, f !! "type" = Some ty ∧ ty ∈ flow_types)
  ∧ is_Some (f !! "parameter")
  ∧ (∃ o, f !! "origin" = Some o ∧ o ∈ compartments).

Definition to_ok (f : flow) : Prop :=
  ∃ d, f !! "to" = Some d ∧ d ∈ compartments.

Definition is_death (f : flow) : Prop :=
  f !! "type" = Some "compartment_death".

(** *** Age-specific latency parameters *)

(** Python scientific literals, as exact rationals. *)
Definition sci (mantissa : Q) (exponent : Z) : Q :=
  (mantissa * inject_Z 10 ^ exponent)%Q.

Definition provide_age_specific_latency_parameters
    : list (string * list (Q * Q)) :=
  [ ("early_progression",
      [(0, sci 6.6 (-3)); (5, sci 2.7 (-3)); (15, sci 2.7 (-4))]);
    ("stabilisation",
      [(0, sci 1.2 (-2)); (5, sci 1.2 (-2)); (15, sci 5.4 (-3))]);
    ("late_progression",
      [(0, sci 1.9 (-11)); (5, sci 6.4 (-6)); (15, sci 3.3 (-6))]) ]%Q.

(** Modelled from the spec: [create_step_function_from_dict] belongs to
    summer_model.py, which is not among the source files.  Given
    breakpoint-to-value pairs it returns a function that, for an input
    time, returns the value associated with the greatest breakpoint less
    than or equal to that time; it is undefined below the smallest
    breakpoint. *)
Fixpoint greatest_breakpoint {V} (t : Q) (best : option (Q * V))
    (pairs : list (Q * V)) : option (Q * V) :=
  match pairs with
  | [] => best
  | (k, v) :: pairs' =>
      if Qle_bool k t then
        match best with
        | Some (kb, _) =>
            if Qle_bool k kb then greatest_breakpoint t best pairs'
            else greatest_breakpoint t (Some (k, v)) pairs'
        | None => greatest_breakpoint t (Some (k, v)) pairs'
        end
      else greatest_breakpoint t best pairs'
  end.

Definition create_step_function_from_dict {V} (pairs : list (Q * V))
    : Q → option V :=
  λ t, snd <$> greatest_breakpoint t None pairs.

End TbModel.

(** ** calibration.py *)

Module Calibration.

(** *** Values held by the prior and target dictionaries *)

(** A float is a real number or the [nan] that [np.mean] gives for an
    empty list. *)
Inductive number : Type :=
| Real (x : Q)
| NaN.

Inductive value : Type :=
| VNum (x : number)
| VStr (s : string)
| VList (l : list Q).

Abbreviation dict := (gmap string value).

Definition as_string (v : value) : result string :=
  match v with
  | VStr s => Ok s
  | _ => Raise TypeError
  end.

Definition as_list (v : value) : result (list Q) :=
  match v with
  | VList l => Ok l
  | _ => Raise TypeError
  end.

(** [k * x] *)
Definition scale (k : Q) (x : number) : number :=
  match x with
  | Real q => Real (k * q)
  | NaN => NaN
  end.

Definition total (l : list Q) : Q := foldr Qplus 0%Q l.

(** [np.mean]: the arithmetic mean of a list, [nan] for the empty list,
    the number itself for a scalar. *)
Definition np_mean (v : value) : result number :=
  match v with
  | VList [] => Ok NaN
  | VList l => Ok (Real (total l / inject_Z (Z.of_nat (length l))))
  | VNum x => Ok x
  | VStr _ => Raise TypeError
  end.

(** *** The object store

    A model owns four containers, each an object of its own: copying a
    model without copying them would share them. *)
Abbreviation loc := positive.

Record StratifiedModel : Type := {
  compartment_names : loc;
  flows : loc;
  parameters : loc;
  time_variants : loc;
  outputs : option (list (list Q))
}.

Record PostProcessing : Type := {
  model : loc;
  requested_outputs : list string;
  requested_times : gmap string (list Q);
  generated_outputs : gmap string (list Q)
}.

Inductive obj : Type :=
| ONames (l : list string)
| OFlows (l : list (gmap string string))
| OParameters (m : gmap string Q)
| OTimeVariants (m : gmap string (Q → result Q))
| OModel (m : StratifiedModel)
| OPostProcessing (p : PostProcessing).

Abbreviation store := (gmap loc obj).

Definition alloc (o : obj) : eff store loc :=
  λ h, let l := fresh (dom h) in (Ok l, <[l := o]> h).

Definition read (l : loc) : eff store obj :=
  λ h, match h !! l with
       | Some o => (Ok o, h)
       | None => (Raise AttributeError, h)
       end.

Definition write (l : loc) (o : obj) : eff store unit :=
  modify (<[l := o]>).

Definition read_names (l : loc) : eff store (list string) :=
  o ← read l;
  match o with ONames x => mret x | _ => raise AttributeError end.

Definition read_flows (l : loc) : eff store (list (gmap string string)) :=
  o ← read l;
  match o with OFlows x => mret x | _ => raise AttributeError end.

Definition read_parameters (l : loc) : eff store (gmap string Q) :=
  o ← read l;
  match o with OParameters x => mret x | _ => raise AttributeError end.

Definition read_time_variants (l : loc)
    : eff store (gmap string (Q → result Q)) :=
  o ← read l;
  match o with OTimeVariants x => mret x | _ => raise AttributeError end.

Definition read_model (l : loc) : eff store StratifiedModel :=
  o ← read l;
  match o with OModel x => mret x | _ => raise AttributeError end.

Definition read_post_processing (l : loc) : eff store PostProcessing :=
  o ← read l;
  match o with OPostProcessing x => mret x | _ => raise AttributeError end.

(** [copy.deepcopy] of a model: every container is copied into a fresh
    object, then the model itself.  Functions are copied by reference,
    as [deepcopy] does. *)
Definition deepcopy (l : loc) : eff store loc :=
  m ← read_model l;
  names ← read_names (compartment_names m);
  fl ← read_flows (flows m);
  ps ← read_parameters (parameters m);
  tv ← read_time_variants (time_variants m);
  l_names ← alloc (ONames names);
  l_flows ← alloc (OFlows fl);
  l_parameters ← alloc (OParameters ps);
  l_time_variants ← alloc (OTimeVariants tv);
  alloc (OModel {| compartment_names := l_names;
                   flows := l_flows;
                   parameters := l_parameters;
                   time_variants := l_time_variants;
                   outputs := outputs m |}).

(** [copy.copy], for comparison: the new model shares the containers. *)
Definition shallow_copy (l : loc) : eff store loc :=
  m ← read_model l;
  alloc (OModel m).

(** [model.parameters[name] = x] *)
Definition set_parameter (l : loc) (name : string) (x : Q) : eff store unit :=
  m ← read_model l;
  ps ← read_parameters (parameters m);
  write (parameters m) (OParameters (<[name := x]> ps)).

(** *** The Calibration instance *)

Record Calibration : Type := {
  base_model : loc;
  running_model : option loc;
  post_processing : option loc;
  priors : list dict;
  param_list : list string;
  targeted_outputs : list dict;
  mcmc_trace : option (list (gmap string Q));
  mle_estimates : gmap string Q
}.

Definition set_running_model (x : option loc) (c : Calibration) : Calibration :=
  {| base_model := base_model c; running_model := x;
     post_processing := post_processing c; priors := priors c;
     param_list := param_list c; targeted_outputs := targeted_outputs c;
     mcmc_trace := mcmc_trace c; mle_estimates := mle_estimates c |}.

Definition set_post_processing (x : option loc) (c : Calibration) : Calibration :=
  {| base_model := base_model c; running_model := running_model c;
     post_processing := x; priors := priors c;
     param_list := param_list c; targeted_outputs := targeted_outputs c;
     mcmc_trace := mcmc_trace c; mle_estimates := mle_estimates c |}.

Definition set_targeted_outputs (x : list dict) (c : Calibration) : Calibration :=
  {| base_model := base_model c; running_model := running_model c;
     post_processing := post_processing c; priors := priors c;
     param_list := param_list c; targeted_outputs := x;
     mcmc_trace := mcmc_trace c; mle_estimates := mle_estimates c |}.

Definition set_mcmc_trace (x : option (list (gmap string Q))) (c : Calibration)
    : Calibration :=
  {| base_model := base_model c; running_model := running_model c;
     post_processing := post_processing c; priors := priors c;
     param_list := param_list c; targeted_outputs := targeted_outputs c;
     mcmc_trace := x; mle_estimates := mle_estimates c |}.

Definition set_mle_estimates (x : gmap string Q) (c : Calibration) : Calibration :=
  {| base_model := base_model c; running_model := running_model c;
     post_processing := post_processing c; priors := priors c;
     param_list := param_list c; targeted_outputs := targeted_outputs c;
     mcmc_trace := mcmc_trace c; mle_estimates := x |}.

(** The world of a method call: the attributes of [self], the object
    store, and the exception objects constructed so far (constructing
    an exception does not raise it). *)
Record world : Type := {
  self : Calibration;
  heap : store;
  constructed : list (exn * string)
}.

Definition on_self (f : Calibration → Calibration) : eff world unit :=
  modify (λ w, {| self := f (self w); heap := heap w;
                  constructed := constructed w |}).

Definition on_heap {A} (m : eff store A) : eff world A :=
  λ w, let '(r, h) := m (heap w) in
       (r, {| self := self w; heap := h; constructed := constructed w |}).

Definition construct (e : exn) (message : string) : eff world unit :=
  modify (λ w, {| self := self w; heap := heap w;
                  constructed := constructed w ++ [(e, message)] |}).

(** [[self.priors[i]['param_name'] for i in range(len(self.priors))]],
    as [__init__] computes [param_list]; parameter names are strings. *)
Definition param_name (prior : dict) : result string :=
  getitem prior "param_name" ≫= as_string.

Definition param_names (priors : list dict) : result (list string) :=
  for_each param_name priors.

(** The parameter map after the overrides [params] have been written
    under the names of the priors, in order. *)
Definition overridden (names : list string) (params : list Q)
    (ps : gmap string Q) : gmap string Q :=
  foldl (λ acc nx, <[nx.1 := nx.2]> acc) ps (zip names params).

(** The store [h] holds, next to what the store [h0] held, a copy of a
    model: the copy [rm] and its four containers are objects that [h0] did
    not have, the containers hold [names], [fl], [ps] and [tv], and every
    object of [h0] other than a post-processing object is as it was. *)
Record running_copy (h0 : store) (rm : loc) (m' : StratifiedModel)
    (names : list string) (fl : list (gmap string string))
    (tv : gmap string (Q → result Q)) (ps : gmap string Q) (h : store)
    : Prop := {
  copy_frame :
    ∀ l o, h0 !! l = Some o → (∀ p, o ≠ OPostProcessing p) → h !! l = Some o;
  copy_dom : dom h0 ⊆ dom h;
  copy_fresh :
    Forall (λ l, l ∉ dom h0)
      [rm; compartment_names m'; flows m'; parameters m'; time_variants m'];
  copy_model :
    ∃ out, h !! rm = Some (OModel {|
             compartment_names := compartment_names m';
             flows := flows m';
             parameters := parameters m';
             time_variants := time_variants m';
             outputs := out |});
  copy_names : h !! compartment_names m' = Some (ONames names);
  copy_flows : h !! flows m' = Some (OFlows fl);
  copy_parameters : h !! parameters m' = Some (OParameters ps);
  copy_time_variants : h !! time_variants m' = Some (OTimeVariants tv)
}.

(** The world [w] of a run that started in [w0]: the store holds the copy
    [rm], which is the running model of the instance, and the instance is
    otherwise as it was, up to its post-processing object. *)
Definition running_world (w0 : world) (rm : loc) (m' : StratifiedModel)
    (names : list string) (fl : list (gmap string string))
    (tv : gmap string (Q → result Q)) (ps : gmap string Q) (w : world)
    : Prop :=
  running_copy (heap w0) rm m' names fl tv ps (heap w)
  ∧ running_model (self w) = Some rm
  ∧ base_model (self w) = base_model (self w0)
  ∧ priors (self w) = priors (self w0)
  ∧ param_list (self w) = param_list (self w0)
  ∧ targeted_outputs (self w) = targeted_outputs (self w0)
  ∧ mcmc_trace (self w) = mcmc_trace (self w0)
  ∧ mle_estimates (self w) = mle_estimates (self w0)
  ∧ constructed w = constructed w0.

Definition the_running_model : eff world loc :=
  w ← get;
  match running_model (self w) with
  | Some l => mret l
  | None => raise AttributeError
  end.

(** [l.index(x)] *)
Definition index_of (x : string) (l : list string) : result nat :=
  match list_find (x =.) l with
  | Some (i, _) => Ok i
  | None => Raise ValueError
  end.

(** [enumerate(l)] *)
Definition enumerate {A} (l : list A) : list (nat * A) := imap pair l.

(** *** workout_unspecified_sds

    The [print] of the new value is left out. *)
Definition workout_target (it : nat * dict) : eff world unit :=
  let '(i, target) := it in
  match target !! "sd" with
  | None =>
      values ← lift (getitem target "values");
      m ← lift (np_mean values);
      on_self (λ c, set_targeted_outputs
                      (alter (<["sd" := VNum (scale (0.5 / 4) m)]>) i
                             (targeted_outputs c)) c)
  | Some _ => mret tt
  end.

Definition workout_unspecified_sds : eff world unit :=
  w ← get;
  for_in (enumerate (targeted_outputs (self w))) workout_target.

(** What the loop does to one target: a target with an [sd] is kept as it
    is; a target without one gets [0.5 / 4] times the mean of its [values]
    under [sd], and keeps every other field. *)
Definition sd_worked_out (target target' : dict) : Prop :=
  match target !! "sd" with
  | Some _ => target' = target
  | None =>
      ∃ values m,
        target !! "values" = Some values ∧ np_mean values = Ok m
        ∧ target' !! "sd" = Some (VNum (scale (0.5 / 4) m))
        ∧ ∀ k, k ≠ "sd" → target' !! k = target !! k
  end.

Section Methods.

(** The collaborators of the class.  [model_builder] builds a new
    model in the store; [integrate] and [extract] stand for the
    numerical work of the engine and of the post-processing. *)
Variable model_builder : option Q → eff store loc.
Variable integrate :
  list string → list (gmap string string) → gmap string Q →
  gmap string (Q → result Q) → result (list (list Q)).
Variable extract :
  option (list (list Q)) → list string → list string →
  gmap string (list Q) → result (gmap string (list Q)).

(** Modelled from the spec: [StratifiedModel.run_model] belongs to
    summer_model.py, which is not among the source files.  The
    integration driver never mutates the structural model, only reads
    it to assemble derivatives, and produces the output matrix once
    per run. *)
Definition run_model (l : loc) : eff store unit :=
  m ← read_model l;
  names ← read_names (compartment_names m);
  fl ← read_flows (flows m);
  ps ← read_parameters (parameters m);
  tv ← read_time_variants (time_variants m);
  out ← lift (integrate names fl ps tv);
  write l (OModel {| compartment_names := compartment_names m;
                     flows := flows m;
                     parameters := parameters m;
                     time_variants := time_variants m;
                     outputs := Some out |}).

(** Modelled from the spec: [PostProcessing] belongs to
    post_processing.py, which is not among the source files.  It
    extracts the named outputs at the named times from a model that
    has been run and never reaches into structural internals. *)
Definition generate_outputs (pp : loc) : eff store unit :=
  p ← read_post_processing pp;
  m ← read_model (model p);
  names ← read_names (compartment_names m);
  g ← lift (extract (outputs m) names (requested_outputs p)
                    (requested_times p));
  write pp (OPostProcessing {| model := model p;
                               requested_outputs := requested_outputs p;
                               requested_times := requested_times p;
                               generated_outputs := g |}).

(** [PostProcessing(model, requested_outputs, requested_times)]: the
    constructor stores its arguments and generates the outputs. *)
Definition new_PostProcessing (rm : loc) (ro : list string)
    (rt : gmap string (list Q)) : eff store loc :=
  pp ← alloc (OPostProcessing {| model := rm;
                                 requested_outputs := ro;
                                 requested_times := rt;
                                 generated_outputs := ∅ |});
  generate_outputs pp;;
  mret pp.

(** [pp.model = rm; pp.generated_outputs = {}; pp.generate_outputs()] *)
Definition refresh_post_processing (pp rm : loc) : eff store unit :=
  p ← read_post_processing pp;
  write pp (OPostProcessing {| model := rm;
                               requested_outputs := requested_outputs p;
                               requested_times := requested_times p;
                               generated_outputs := ∅ |});;
  generate_outputs pp.

Definition output_key (target : dict) : result string :=
  getitem target "output_key" ≫= as_string.

Definition add_requested_time (rt : gmap string (list Q)) (output : dict)
    : result (gmap string (list Q)) :=
  years ← getitem output "years" ≫= as_list;
  key ← output_key output;
  Ok (<[key := years]> rt).

Fixpoint requested_times_of (targets : list dict)
    (rt : gmap string (list Q)) : result (gmap string (list Q)) :=
  match targets with
  | [] => Ok rt
  | output :: targets' =>
      rt' ← add_requested_time rt output; requested_times_of targets' rt'
  end.

Definition update_post_processing : eff world unit :=
  w ← get;
  match post_processing (self w) with
  | None =>
      ro ← lift (for_each output_key (targeted_outputs (self w)));
      rt ← lift (requested_times_of (targeted_outputs (self w)) ∅);
      rm ← the_running_model;
      pp ← on_heap (new_PostProcessing rm ro rt);
      on_self (set_post_processing (Some pp))
  | Some pp =>
      rm ← the_running_model;
      on_heap (refresh_post_processing pp rm)
  end.

(** The body of the loop over [range(len(params))]. *)
Definition override (params : list Q) (i : nat) : eff world unit :=
  w ← get;
  prior ← lift (index (priors (self w)) i);
  name ← lift (param_name prior);
  if decide (name ≠ "start_time") then
    x ← lift (index params i);
    rm ← the_running_model;
    on_heap (set_parameter rm name x)
  else mret tt.

Definition run_model_with_params (params : list Q) : eff world unit :=
  w ← get;
  (if decide ("start_time" ∈ param_list (self w)) then
     this_param_index ← lift (index_of "start_time" (param_list (self w)));
     start_time ← lift (index params this_param_index);
     rm ← on_heap (model_builder (Some start_time));
     on_self (set_running_model (Some rm))
   else
     rm ← on_heap (deepcopy (base_model (self w)));
     on_self (set_running_model (Some rm)));;
  for_in (seq 0 (length params)) (override params);;
  rm ← the_running_model;
  on_heap (run_model rm);;
  update_post_processing.

(** The same method with [copy.copy] in place of [copy.deepcopy]. *)
Definition run_model_with_params_shallow (params : list Q) : eff world unit :=
  w ← get;
  rm ← on_heap (shallow_copy (base_model (self w)));
  on_self (set_running_model (Some rm));;
  for_in (seq 0 (length params)) (override params);;
  rm ← the_running_model;
  on_heap (run_model rm);;
  update_post_processing.

(** *** run_fitting_algorithm

    PyMC3 and Theano are collaborators: their calls are parameters. *)
Variables RV Theta : Type.
Variable pm_Uniform : string → Q → Q → result RV.
Variable as_tensor_variable : list RV → result Theta.
Variable pm_DensityDist : Theta → result unit.
Variable pm_find_MAP : Theta → eff world (gmap string Q).

Inductive step_method : Type :=
| Metropolis
| DEMetropolis.

Variable pm_sample :
  nat → step_method → nat → nat → bool → Theta →
  eff world (list (gmap string Q)).

(** One turn of the loop over the priors: a uniform prior gives a
    random variable, any other distribution is skipped. *)
Definition fitted_param (prior : dict) : result (option RV) :=
  distribution ← getitem prior "distribution";
  match distribution with
  | VStr "uniform" =>
      name ← param_name prior;
      bounds ← getitem prior "distri_params" ≫= as_list;
      lower ← index bounds 0;
      bounds ← getitem prior "distri_params" ≫= as_list;
      upper ← index bounds 1;
      Some <$> pm_Uniform name lower upper
  | _ => Ok None
  end.

(** Everything before the dispatch on [run_mode]. *)
Definition model_setup (priors : list dict) : result Theta :=
  fitted_params ← for_each fitted_param priors;
  theta ← as_tensor_variable (omap id fitted_params);
  pm_DensityDist theta;;
  Ok theta.

Definition unsupported_mcmc_mode : string :=
  "requested mcmc mode is not supported. Must be one of ['Metropolis', 'DEMetropolis']".

Definition unsupported_run_mode : string :=
  "requested run mode is not supported. Must be one of ['mcmc', 'lme']".

(** A local variable that was never assigned cannot be read. *)
Definition local {A} (x : option A) : eff world A :=
  match x with
  | Some a => mret a
  | None => raise UnboundLocalError
  end.

Definition run_fitting_algorithm (run_mode mcmc_method : string)
    (n_iterations n_burned n_chains : nat) (parallel : bool)
    : eff world unit :=
  w ← get;
  theta ← lift (model_setup (priors (self w)));
  if decide (run_mode = "mle") then
    estimates ← pm_find_MAP theta;
    on_self (set_mle_estimates estimates)
  else if decide (run_mode = "mcmc") then
    mcmc_step ←
      (if decide (mcmc_method = "Metropolis") then mret (Some Metropolis)
       else if decide (mcmc_method = "DEMetropolis")
            then mret (Some DEMetropolis)
       else construct ValueError unsupported_mcmc_mode;; mret None);
    step ← local mcmc_step;
    trace ← pm_sample n_iterations step n_burned n_chains parallel theta;
    on_self (set_mcmc_trace (Some trace))
  else construct ValueError unsupported_run_mode.

End Methods.

Arguments fitted_param {RV} pm_Uniform prior.
Arguments model_setup {RV Theta} pm_Uniform as_tensor_variable pm_DensityDist
  priors.
Arguments run_fitting_algorithm {RV Theta} pm_Uniform as_tensor_variable
  pm_DensityDist pm_find_MAP pm_sample run_mode mcmc_method
  n_iterations n_burned n_chains parallel.

(** *** The calibration of the [__main__] block *)

Definition par_priors : list dict :=
  [ {[ "param_name" := VStr "contact_rate"; "distribution" := VStr "uniform";
       "distri_params" := VList [2; 100]%Q ]};
    {[ "param_name" := VStr "late_progression";
       "distribution" := VStr "uniform";
       "distri_params" := VList [0.001; 0.003]%Q ]};
    {[ "param_name" := VStr "start_time"; "distribution" := VStr "uniform";
       "distri_params" := VList [1800; 1850]%Q ]} ].

Definition target_outputs : list dict :=
  [ {[ "output_key" := VStr "prevXinfectiousXamongXage_15";
       "years" := VList [2015; 2016]%Q;
       "values" := VList [0.005; 0.004]%Q;
       "sd" := VNum (Real 0.0005) ]};
    {[ "output_key" := VStr "prevXlatentXamongXage_5";
       "years" := VList [2014]%Q;
       "values" := VList [0.096]%Q;
       "sd" := VNum (Real 0.012) ]} ].

(** A store with one built model, and an instance over it. *)
Definition built_store : store :=
  {[ 1%positive := OModel {| compartment_names := 2%positive;
                             flows := 3%positive;
                             parameters := 4%positive;
                             time_variants := 5%positive;
                             outputs := None |};
     2%positive := ONames TbModel.compartments;
     3%positive := OFlows TbModel.standard_flows;
     4%positive := OParameters {[ "contact_rate" := 20%Q;
                                  "case_detection" := 0%Q ]};
     5%positive := OTimeVariants ∅ ]}.

Definition instance (priors targets : list dict) (names : list string)
    : Calibration :=
  {| base_model := 1%positive; running_model := None;
     post_processing := None; priors := priors; param_list := names;
     targeted_outputs := targets; mcmc_trace := None; mle_estimates := ∅ |}.

Definition fresh_world (priors targets : list dict) (names : list string)
    : world :=
  {| self := instance priors targets names; heap := built_store;
     constructed := [] |}.

End Calibration.

(** ** tb_model.py: the model builders and the reading of names *)

Module TbModelBuild.
Import TbModel.

(** The local constants of [build_working_tb_model] and
    [build_model_for_calibration]. *)
Definition case_fatality_rate : Q := 0.4.
Definition untreated_disease_duration : Q := 3.

(** The entries ["recovery"] and ["infect_death"] of [parameters]. *)
Definition recovery : Q := case_fatality_rate / untreated_disease_duration.
Definition infect_death : Q :=
  (1 - case_fatality_rate) / untreated_disease_duration.

(** [prop_to_rate] and [detect_rate], for whatever scale-up function the
    case detection data give. *)
Definition prop_to_rate : Q → result Q :=
  convert_competing_proportion_to_rate (1 / untreated_disease_duration).

Definition detect_rate (cdr_scaleup : Q → result Q) : Q → result Q :=
  return_function_of_function cdr_scaleup prop_to_rate.

(** The part of a stratum value that [split("_")[1]] keeps: what comes
    before its first underscore. *)
Definition before_underscore (v : string) : string :=
  default "" (head (split "_" v)).

(** Names whose pieces fall where the consumer looks for them: no
    delimiter in any part, no underscore in the stratification names. *)
Definition named_apart (base : string) (applied : list (string * string))
    : Prop :=
  occurs "X" base = false
  ∧ Forall (λ sv, plain sv.1 ∧ occurs "X" sv.2 = false) applied.

(** A row that still has its compartment name; a cell that holds a
    string. *)
Definition has_name (r : row) : Prop := ∃ s, r !! "variable" = Some (CStr s).
Definition is_text (c : cell) : Prop := ∃ s, c = CStr s.

End TbModelBuild.

(** ** calibration.py: what the statements of its properties need *)

Module CalibrationRun.
Import Calibration.

(** [prior['distribution'] == 'uniform'] *)
Definition is_uniform (prior : dict) : bool :=
  match prior !! "distribution" with
  | Some (VStr s) => bool_decide (s = "uniform")
  | _ => false
  end.

(** The years a target asks for under the output key [key], if that is
    its key. *)
Definition years_of (key : string) (target : dict) : option (list Q) :=
  match output_key target, getitem target "years" ≫= as_list with
  | Ok k, Ok years => if decide (k = key) then Some years else None
  | _, _ => None
  end.

(** Every object of the store [h0] is in the store [h] as it was. *)
Definition old_kept (h0 h : store) : Prop :=
  ∀ k, k ∈ dom h0 → h !! k = h0 !! k.

End CalibrationRun.

(** * Properties of tb_model.py *)

Module TbModelFacts.
Import TbModel.

(** ** Function composition *)

(** C4: for every pair of functions [inner] and [outer] and every input
    [t], the function returned by [return_function_of_function inner outer]
    applied to [t] equals [outer (inner t)]: [inner] is evaluated first, its
    value is passed to [outer], and an exception of [inner] is the outcome
    of the call. *)
Theorem return_function_of_function_spec {A B C : Type}
    (inner : A → result B) (outer : B → result C) (t : A) :
  return_function_of_function inner outer t =
    match inner t with
    | Ok v => outer v
    | Raise e => Raise e
    end.
Proof. reflexivity. Qed.

(** ** Proportion to rate *)

Lemma Qeq_bool_sub_one (p : Q) : Qeq_bool (1 - p) 0 = true ↔ (p == 1)%Q.
Proof.
  rewrite Qeq_bool_iff. split; intros H.
  - rewrite <- (Qplus_0_l p), <- H. ring.
  - rewrite H. ring.
Qed.



(** ** Returned functions keep no state *)

Lemma evaluations_stateless {W A B} (f : A → eff W B) (g : A → result B) :
  (∀ x w, f x w = (g x, w)) →
  ∀ args w, evaluations f args w = (g <$> args, w).
Proof.
  intros Hf args. induction args as [|x args IH]; intros w; simpl.
  - done.
  - by rewrite Hf, IH.
Qed.

Lemma stateless_repeatable {W A B} (f : A → eff W B) :
  stateless f → repeatable f.
Proof.
  intros [g Hf] between t w.
  rewrite Hf, (evaluations_stateless f g Hf), Hf. done.
Qed.

Lemma return_function_of_function_stateless {W A B C}
    (inner : A → eff W B) (outer : B → eff W C) :
  stateless inner → stateless outer →
  stateless (return_function_of_function inner outer).
Proof.
  intros [gi Hi] [go Ho].
  exists (return_function_of_function gi go). intros x w.
  unfold return_function_of_function, mbind, eff_bind, result_bind.
  rewrite Hi. destruct (gi x); [apply Ho | done].
Qed.



(** ** The step function of the age-specific parameters *)

Lemma greatest_breakpoint_spec {V} (t : Q) (pairs : list (Q * V)) :
  ∀ best : option (Q * V),
    (∀ kb vb, best = Some (kb, vb) → (kb <= t)%Q) →
    match greatest_breakpoint t best pairs with
    | Some (k, v) =>
        (best = Some (k, v) ∨ (k, v) ∈ pairs)
        ∧ (k <= t)%Q
        ∧ (∀ k' v', (k', v') ∈ pairs → (k' <= t)%Q → (k' <= k)%Q)
        ∧ (∀ kb vb, best = Some (kb, vb) → (kb <= k)%Q)
    | None => best = None ∧ ∀ k' v', (k', v') ∈ pairs → ¬ (k' <= t)%Q
    end.
Proof.
  induction pairs as [|[k v] pairs IH]; intros best Hbest; simpl.
  - destruct best as [[kb vb]|].
    + split_and!; [by left | by eapply Hbest | | ].
      * intros k' v' Hin. by apply elem_of_nil in Hin.
      * intros ? ? [= <- <-]. apply Qle_refl.
    + split; [done|]. intros k' v' Hin. by apply elem_of_nil in Hin.
  - destruct (Qle_bool k t) eqn:Ekt.
    + apply Qle_bool_iff in Ekt.
      assert (Hnew : ∀ kb vb, Some (k, v) = Some (kb, vb) → (kb <= t)%Q)
        by (by intros ? ? [= <- <-]).
      destruct best as [[kb vb]|].
      * destruct (Qle_bool k kb) eqn:Ekb.
        -- apply Qle_bool_iff in Ekb.
           specialize (IH _ Hbest).
           destruct (greatest_breakpoint t (Some (kb, vb)) pairs)
             as [[k0 v0]|]; [|by destruct IH].
           destruct IH as (Hin & Hle & Hmax & Hb). split_and!; [| done | | done].
           ++ destruct Hin as [?|?]; [by left | right; by apply elem_of_cons; right].
           ++ intros k' v' [[= -> ->]|Hin']%elem_of_cons Hk'.
              ** eapply Qle_trans; [exact Ekb | by eapply Hb].
              ** by eapply Hmax.
        -- assert (kb <= k)%Q as Hkb.
           { apply Qlt_le_weak, Qnot_le_lt. intros H%Qle_bool_iff. congruence. }
           specialize (IH _ Hnew).
           destruct (greatest_breakpoint t (Some (k, v)) pairs)
             as [[k0 v0]|]; [|by destruct IH].
           destruct IH as (Hin & Hle & Hmax & Hb). split_and!; [| done | | ].
           ++ right. destruct Hin as [[= <- <-]|?]; apply elem_of_cons; auto.
           ++ intros k' v' [[= -> ->]|Hin']%elem_of_cons Hk'.
              ** by eapply Hb.
              ** by eapply Hmax.
           ++ intros ? ? [= <- <-]. eapply Qle_trans; [exact Hkb | by eapply Hb].
      * specialize (IH _ Hnew).
        destruct (greatest_breakpoint t (Some (k, v)) pairs)
          as [[k0 v0]|]; [|by destruct IH].
        destruct IH as (Hin & Hle & Hmax & Hb). split_and!; [| done | | done].
        -- right. destruct Hin as [[= <- <-]|?]; apply elem_of_cons; auto.
        -- intros k' v' [[= -> ->]|Hin']%elem_of_cons Hk'.
           ** by eapply Hb.
           ** by eapply Hmax.
    + assert (¬ (k <= t)%Q) as Hkt.
      { intros H%Qle_bool_iff. congruence. }
      specialize (IH _ Hbest).
      destruct (greatest_breakpoint t best pairs) as [[k0 v0]|].
      * destruct IH as (Hin & Hle & Hmax & Hb). split_and!; [| done | | done].
        -- destruct Hin as [?|?]; [by left | right; by apply elem_of_cons; right].
        -- intros k' v' [[= -> ->]|Hin']%elem_of_cons Hk'; [done | by eapply Hmax].
      * destruct IH as [-> Hnone]. split; [done|].
        intros k' v' [[= -> ->]|Hin']%elem_of_cons; [done | by eapply Hnone].
Qed.

(** C5: the function returned by the step-function builder from a
    breakpoint-to-value mapping returns, for any input time, the value
    associated with the greatest breakpoint less than or equal to that
    time, and it returns one as soon as some breakpoint is at or below the
    time; built from [{0: a, 5: b, 15: c}] it returns [a] at 3, [b] at 5
    and [c] at 20. *)
Theorem create_step_function_from_dict_spec {V} :
  (∀ (pairs : list (Q * V)) (t : Q) (v : V),
     create_step_function_from_dict pairs t = Some v →
     ∃ k, (k, v) ∈ pairs ∧ (k <= t)%Q
          ∧ ∀ k' v', (k', v') ∈ pairs → (k' <= t)%Q → (k' <= k)%Q)
  ∧ (∀ (pairs : list (Q * V)) (t k : Q) (v : V),
       (k, v) ∈ pairs → (k <= t)%Q →
       is_Some (create_step_function_from_dict pairs t))
  ∧ (∀ a b c : V,
       let f := create_step_function_from_dict [(0, a); (5, b); (15, c)]%Q in
       f 3%Q = Some a ∧ f 5%Q = Some b ∧ f 20%Q = Some c).
Proof.
  split_and!.
  - intros pairs t v. unfold create_step_function_from_dict.
    pose proof (greatest_breakpoint_spec t pairs None) as H.
    destruct (greatest_breakpoint t None pairs) as [[k0 v0]|]; simpl; [|done].
    destruct H as ([?|Hin] & Hle & Hmax & _); [done.. | | ]; [done|].
    intros [= <-]. by exists k0.
  - intros pairs t k v Hin Hle. unfold create_step_function_from_dict.
    pose proof (greatest_breakpoint_spec t pairs None) as H.
    destruct (greatest_breakpoint t None pairs) as [[k0 v0]|]; simpl.
    + by eexists.
    + destruct H as [_ Hnone]; [done|]. by destruct (Hnone k v).
  - intros a b c. by cbv.
Qed.

Lemma create_step_function_from_dict_witness :
  (∃ k, (k, sci 2.7 (-3)) ∈ [(0, sci 6.6 (-3)); (5, sci 2.7 (-3));
                              (15, sci 2.7 (-4))]%Q
        ∧ (k <= 6)%Q
        ∧ ∀ k' v', (k', v') ∈ [(0, sci 6.6 (-3)); (5, sci 2.7 (-3));
                                (15, sci 2.7 (-4))]%Q →
                   (k' <= 6)%Q → (k' <= k)%Q)
  ∧ is_Some (create_step_function_from_dict
               [(0, sci 6.6 (-3)); (5, sci 2.7 (-3)); (15, sci 2.7 (-4))]%Q
               6%Q).
Proof.
  split.
  - apply (proj1 create_step_function_from_dict_spec
             [(0, sci 6.6 (-3)); (5, sci 2.7 (-3)); (15, sci 2.7 (-4))]%Q
             6%Q (sci 2.7 (-3))).
    reflexivity.
  - apply (proj1 (proj2 create_step_function_from_dict_spec)
             _ 6%Q 5%Q (sci 2.7 (-3))).
    + apply elem_of_cons; right. apply elem_of_cons; by left.
    + discriminate.
Defined.

(** ** The standard flows *)

Lemma elem_of_list_dec_true {A} `{EqDecision A} (x : A) (l : list A) :
  bool_decide (x ∈ l) = true → x ∈ l.
Proof. apply bool_decide_eq_true_1. Qed.

Ltac known_flow :=
  lazymatch goal with
  | |- flow_ok _ =>
      split_and!;
      [ eexists; split; [vm_compute; reflexivity | by apply elem_of_list_dec_true]
      | eexists; vm_compute; reflexivity
      | eexists; split; [vm_compute; reflexivity | by apply elem_of_list_dec_true] ]
  | |- to_ok _ =>
      eexists; split; [vm_compute; reflexivity | by apply elem_of_list_dec_true]
  | |- ¬ is_death _ => unfold is_death; vm_compute; discriminate
  end.

(** C6: every flow record produced by applying
    [add_standard_infection_flows], then [add_standard_latency_flows], then
    [add_standard_natural_history_flows] to the empty list has a type among
    [infection_frequency], [standard_flows] and [compartment_death], a
    parameter name and an origin in the base compartment list; every flow
    has a destination in that list except the single [compartment_death]
    flow, which has no [to] field; and each helper appends its flows after
    the existing entries, leaving them unchanged and in order. *)
Theorem standard_flows_well_formed :
  Forall flow_ok standard_flows
  ∧ (∃ (before : list flow) (death : flow) (after : list flow),
       standard_flows = (before ++ death :: after)%list
       ∧ is_death death ∧ death !! "to" = None
       ∧ Forall (λ f, ¬ is_death f ∧ to_ok f) (before ++ after)%list)
  ∧ (∀ l, add_standard_infection_flows l
          = (l ++ add_standard_infection_flows [])%list)
  ∧ (∀ l, add_standard_latency_flows l
          = (l ++ add_standard_latency_flows [])%list)
  ∧ (∀ l, add_standard_natural_history_flows l
          = (l ++ add_standard_natural_history_flows [])%list).
Proof.
  split_and!; try done.
  - unfold standard_flows, add_standard_natural_history_flows,
      add_standard_latency_flows, add_standard_infection_flows; simpl.
    repeat (apply Forall_cons; split; [known_flow|]). by apply Forall_nil.
  - exists (take 6 standard_flows),
      ({[ "type" := "compartment_death"; "parameter" := "infect_death";
          "origin" := "infectious" ]} : flow), [].
    rewrite app_nil_r.
    unfold standard_flows, add_standard_natural_history_flows,
      add_standard_latency_flows, add_standard_infection_flows; simpl.
    split_and!; [reflexivity | by vm_compute | by vm_compute |].
    repeat (apply Forall_cons; split; [split; known_flow|]). by apply Forall_nil.
Qed.

(** ** Parsing compartment names *)

Lemma append_nil_l (b : string) : "" +:+ b = b.
Proof. reflexivity. Qed.

Lemma append_cons (x : ascii) (a b : string) :
  String x a +:+ b = String x (a +:+ b).
Proof. reflexivity. Qed.

Lemma append_nil_r (a : string) : a +:+ "" = a.
Proof.
  induction a as [|x a IH]; [done|]. by rewrite append_cons, IH.
Qed.

Lemma append_assoc (a b c : string) : (a +:+ b) +:+ c = a +:+ (b +:+ c).
Proof.
  induction a as [|x a IH]; [done|]. by rewrite !append_cons, IH.
Qed.

Lemma occurs_append (c : ascii) (a b : string) :
  occurs c (a +:+ b) = occurs c a || occurs c b.
Proof.
  induction a as [|x a IH]; [done|]. rewrite append_cons. simpl.
  by destruct (decide (x = c)).
Qed.

Lemma split_nonempty (c : ascii) (s : string) : split c s ≠ [].
Proof.
  induction s as [|x s IH]; simpl; [done|].
  destruct (decide (x = c)); [done|]. by destruct (split c s).
Qed.

Lemma split_without (c : ascii) (s : string) :
  occurs c s = false → split c s = [s].
Proof.
  induction s as [|x s IH]; simpl; [done|].
  destruct (decide (x = c)); [done|]. intros H. by rewrite (IH H).
Qed.

Lemma split_at_first (c : ascii) (a b : string) :
  occurs c a = false → split c (a +:+ String c b) = a :: split c b.
Proof.
  induction a as [|x a IH].
  - intros _. rewrite append_nil_l. simpl. by rewrite decide_True.
  - rewrite append_cons. simpl.
    destruct (decide (x = c)); [done|]. intros H. by rewrite (IH H).
Qed.

Lemma compartment_name_cons (base : string) (sv : string * string)
    (applied : list (string * string)) :
  compartment_name base (sv :: applied)
  = compartment_name (base +:+ stratum_suffix sv) applied.
Proof. reflexivity. Qed.

(** The name as the base label followed by the suffixes, first applied
    stratification first. *)
Lemma compartment_name_append (base : string)
    (applied : list (string * string)) :
  compartment_name base applied
  = base +:+ foldr (λ sv rest, stratum_suffix sv +:+ rest) "" applied.
Proof.
  revert base. induction applied as [|sv applied IH]; intros base.
  - simpl. by rewrite append_nil_r.
  - by rewrite compartment_name_cons, IH, append_assoc.
Qed.

Lemma split_suffixes (head : string) (applied : list (string * string)) :
  occurs "X" head = false →
  Forall (λ sv, occurs "X" (stratum_piece sv) = false) applied →
  split "X" (head +:+ foldr (λ sv rest, stratum_suffix sv +:+ rest) "" applied)
  = head :: (stratum_piece <$> applied).
Proof.
  revert head. induction applied as [|sv applied IH]; intros head Hh Hall.
  - simpl. rewrite append_nil_r. by apply split_without.
  - apply Forall_cons in Hall as [Hsv Hall]. simpl.
    unfold stratum_suffix at 1. rewrite !append_cons, append_nil_l.
    rewrite split_at_first by done. f_equal. by apply IH.
Qed.

Lemma plain_piece (sv : string * string) :
  plain sv.1 → plain sv.2 → occurs "X" (stratum_piece sv) = false.
Proof.
  intros [H1 _] [H2 _]. unfold stratum_piece.
  by rewrite !occurs_append, H1, H2.
Qed.

Lemma split_compartment_name (base : string)
    (applied : list (string * string)) :
  well_named base applied →
  split "X" (compartment_name base applied)
  = base :: (stratum_piece <$> applied).
Proof.
  intros [Hb Hall]. rewrite compartment_name_append.
  apply split_suffixes; [done|].
  eapply Forall_impl; [exact Hall|]. intros sv [? ?]. by apply plain_piece.
Qed.

Lemma split_stratum_piece (sv : string * string) :
  plain sv.1 → plain sv.2 → split "_" (stratum_piece sv) = [sv.1; sv.2].
Proof.
  intros [_ H1] [_ H2]. unfold stratum_piece.
  rewrite append_cons, append_nil_l.
  rewrite split_at_first by done. by rewrite split_without.
Qed.

(** ** One row through the loop *)

Lemma unpivot_row_app (strata : list string) (ns1 ns2 : list nat) (r : row) :
  unpivot_row strata (ns1 ++ ns2) r
  = unpivot_row strata ns1 r ≫= unpivot_row strata ns2.
Proof.
  revert r. induction ns1 as [|n ns1 IH]; intros r; simpl; [done|].
  destruct (unpivot_row_step strata r n); simpl; [apply IH | done].
Qed.

Section OneRow.
Context (strata : list string) (base : string).
Context (applied : list (string * string)).
Context (Hstrata : applied.*1 = strata).
Context (Hnamed : well_named base applied).
Context (Husable : usable_strata strata).

Lemma stratum_in_strata (k : nat) (sv : string * string) :
  applied !! k = Some sv → strata !! k = Some sv.1.
Proof. intros H. by rewrite <- Hstrata, list_lookup_fmap, H. Qed.

Lemma stratum_not_reserved (k : nat) (sv : string * string) :
  applied !! k = Some sv → sv.1 ≠ "compartment" ∧ sv.1 ≠ "variable".
Proof.
  intros H%stratum_in_strata%list_elem_of_lookup_2.
  destruct Husable as (_ & Hc & Hv). split; intros Heq; rewrite Heq in H; done.
Qed.

Lemma unpivot_row_step_base (r : row) :
  r !! "variable" = Some (CStr (compartment_name base applied)) →
  unpivot_row_step strata r 0 = Ok (<["compartment" := CStr base]> r).
Proof.
  intros Hv. unfold unpivot_row_step, split_variable, getitem. simpl.
  rewrite Hv. simpl. by rewrite split_compartment_name.
Qed.

Lemma unpivot_row_step_stratum (r : row) (k : nat) (sv : string * string) :
  r !! "variable" = Some (CStr (compartment_name base applied)) →
  applied !! k = Some sv →
  unpivot_row_step strata r (S k) = Ok (<[sv.1 := CStr sv.2]> r).
Proof.
  intros Hv Hk. unfold unpivot_row_step. simpl.
  unfold index at 1. rewrite (stratum_in_strata k sv Hk). simpl.
  unfold split_variable, getitem. rewrite Hv. simpl.
  rewrite split_compartment_name by done.
  unfold index at 1. simpl. rewrite list_lookup_fmap, Hk. simpl.
  unfold split_stratum, getitem. rewrite lookup_insert_eq. simpl.
  destruct Hnamed as [_ Hall].
  pose proof (proj1 (Forall_lookup _ _) Hall k sv Hk) as [H1 H2].
  rewrite split_stratum_piece by done. simpl.
  by rewrite insert_insert_eq.
Qed.

(** After the turns [0..n] of the loop the row still has its name, its
    base label, and the stratum value of each of the first [n]
    stratifications. *)
Lemma unpivot_row_prefix (r : row) (n : nat) :
  r !! "variable" = Some (CStr (compartment_name base applied)) →
  (n ≤ length applied)%nat →
  ∃ r', unpivot_row strata (seq 0 (S n)) r = Ok r'
        ∧ r' !! "variable" = Some (CStr (compartment_name base applied))
        ∧ r' !! "compartment" = Some (CStr base)
        ∧ ∀ k sv, (k < n)%nat → applied !! k = Some sv →
                  r' !! sv.1 = Some (CStr sv.2).
Proof.
  intros Hv. induction n as [|n IH]; intros Hn.
  - exists (<["compartment" := CStr base]> r). simpl.
    rewrite unpivot_row_step_base by done. simpl. split_and!.
    + done.
    + by rewrite lookup_insert_ne.
    + by rewrite lookup_insert_eq.
    + lia.
  - destruct IH as (r1 & Hrun & Hv1 & Hc1 & Hcols); [lia|].
    destruct (lookup_lt_is_Some_2 applied n) as [sv Hsv]; [lia|].
    destruct (stratum_not_reserved n sv Hsv) as [Hnc Hnv].
    exists (<[sv.1 := CStr sv.2]> r1).
    rewrite seq_S, unpivot_row_app, Hrun. simpl.
    rewrite (unpivot_row_step_stratum r1 n sv) by done. simpl. split_and!.
    + done.
    + by rewrite lookup_insert_ne.
    + by rewrite lookup_insert_ne.
    + intros k sv' Hk Hsv'. destruct (decide (k = n)) as [->|Hne].
      * rewrite Hsv in Hsv'. injection Hsv' as <-. by rewrite lookup_insert_eq.
      * rewrite lookup_insert_ne; [apply (Hcols k sv'); [lia | done]|].
        intros Heq. destruct Husable as (Hnd & _).
        apply Hne. symmetry.
        eapply (NoDup_lookup strata); [done | |].
        -- by apply stratum_in_strata.
        -- rewrite Heq. by apply stratum_in_strata.
Qed.

Lemma unpivot_row_spec (r : row) :
  r !! "variable" = Some (CStr (compartment_name base applied)) →
  ∃ r', unpivot_row strata (seq 0 (length strata + 1)) r = Ok r'
        ∧ r' !! "compartment" = Some (CStr base)
        ∧ Forall (λ sv, r' !! sv.1 = Some (CStr sv.2)) applied.
Proof.
  intros Hv.
  destruct (unpivot_row_prefix r (length applied) Hv) as
    (r' & Hrun & _ & Hc & Hcols); [done|].
  exists r'. split_and!; [| done |].
  - replace (length strata + 1) with (S (length applied)); [done|].
    rewrite <- Hstrata, length_fmap. lia.
  - apply Forall_lookup. intros k sv Hk. apply (Hcols k sv); [|done].
    by eapply lookup_lt_Some.
Qed.

End OneRow.

(** ** The frame and its rows

    The loop fills a column for all the rows at once; when it returns, each
    row has gone through the same turns on its own. *)

Lemma unpivot_step_nil (strata : list string) (n : nat) (out : dataframe) :
  unpivot_step strata [] n = Ok out → out = [].
Proof.
  unfold unpivot_step. destruct (column_name strata n); simpl; [|done].
  destruct (decide (0 < n)); simpl; congruence.
Qed.

Lemma unpivot_step_cons (strata : list string) (r : row) (df : dataframe)
    (n : nat) (out : dataframe) :
  unpivot_step strata (r :: df) n = Ok out ↔
  ∃ r' df', out = r' :: df'
            ∧ unpivot_row_step strata r n = Ok r'
            ∧ unpivot_step strata df n = Ok df'.
Proof.
  unfold unpivot_step, unpivot_row_step, apply_rows.
  destruct (column_name strata n) as [name|e]; simpl;
    [|split; [done | by intros (? & ? & _ & ? & _)]].
  destruct (split_variable n r) as [c|e]; simpl;
    [|split; [done | by intros (? & ? & _ & ? & _)]].
  destruct (for_each (split_variable n) df) as [cs|e]; simpl;
    [|split; [done | by intros (? & ? & _ & _ & ?)]].
  destruct (decide (0 < n)); simpl.
  - destruct (split_stratum name (<[name:=c]> r)) as [c2|e]; simpl;
      [|split; [done | by intros (? & ? & _ & ? & _)]].
    destruct (for_each (split_stratum name) (assign_column name cs df))
      as [cs2|e]; simpl; [|split; [done | by intros (? & ? & _ & _ & ?)]].
    split.
    + intros [= <-]. by eexists _, _.
    + by intros (? & ? & -> & [= <-] & [= <-]).
  - split.
    + intros [= <-]. by eexists _, _.
    + by intros (? & ? & -> & [= <-] & [= <-]).
Qed.

Lemma unpivot_step_rows (strata : list string) (n : nat) :
  is_Ok (column_name strata n) →
  ∀ df out : dataframe,
    unpivot_step strata df n = Ok out ↔
    Forall2 (λ r r', unpivot_row_step strata r n = Ok r') df out.
Proof.
  intros [name Hname]. induction df as [|r df IH]; intros out.
  - split.
    + intros ->%unpivot_step_nil. constructor.
    + intros ->%Forall2_nil_inv_l. unfold unpivot_step. rewrite Hname. simpl.
      by destruct (decide (0 < n)).
  - rewrite unpivot_step_cons. split.
    + intros (r' & df' & -> & Hr & Hdf). constructor; [done | by apply IH].
    + intros (r' & df' & Hr & Hdf & ->)%Forall2_cons_inv_l.
      exists r', df'. split_and!; [done.. | by apply IH].
Qed.

Lemma Forall2_split_relation {A B C} (P : A → B → Prop) (Q : B → C → Prop)
    (l : list A) (k : list C) :
  Forall2 (λ x z, ∃ y, P x y ∧ Q y z) l k →
  ∃ m, Forall2 P l m ∧ Forall2 Q m k.
Proof.
  induction 1 as [|x z l k (y & HP & HQ) _ (m & HPs & HQs)].
  - exists []. by split.
  - exists (y :: m). split; by constructor.
Qed.

Lemma unpivot_row_cons (strata : list string) (n : nat) (ns : list nat)
    (r r' : row) :
  unpivot_row strata (n :: ns) r = Ok r' ↔
  ∃ r1, unpivot_row_step strata r n = Ok r1 ∧ unpivot_row strata ns r1 = Ok r'.
Proof.
  simpl. destruct (unpivot_row_step strata r n) as [r1|e]; simpl.
  - split; [by exists r1 | by intros (? & [= <-] & ?)].
  - split; [done | by intros (? & ? & _)].
Qed.

Lemma unpivot_loop_rows (strata : list string) (ns : list nat) :
  Forall (λ n, is_Ok (column_name strata n)) ns →
  ∀ df out : dataframe,
    unpivot_loop strata ns df = Ok out ↔
    Forall2 (λ r r', unpivot_row strata ns r = Ok r') df out.
Proof.
  induction ns as [|n ns IH]; intros Hns df out.
  - simpl. split.
    + intros [= <-]. by apply Forall_Forall2_diag, Forall_true.
    + intros H. f_equal. apply list_eq_Forall2.
      eapply Forall2_impl; [exact H|]. by intros ? ? [= ->].
  - apply Forall_cons in Hns as [Hn Hns]. simpl. split.
    + destruct (unpivot_step strata df n) as [df1|e] eqn:Hstep; simpl; [|done].
      intros Hloop. apply (unpivot_step_rows _ _ Hn) in Hstep.
      apply (IH Hns) in Hloop.
      eapply Forall2_trans; [|exact Hstep|exact Hloop].
      intros r r1 r' H1 H2. apply unpivot_row_cons. by exists r1.
    + intros H.
      destruct (Forall2_split_relation
                  (λ r r1, unpivot_row_step strata r n = Ok r1)
                  (λ r1 r', unpivot_row strata ns r1 = Ok r') df out)
        as (df1 & Hstep & Hloop).
      { eapply Forall2_impl; [exact H|]. intros r r' Hr.
        by apply unpivot_row_cons. }
      apply (unpivot_step_rows _ _ Hn) in Hstep. rewrite Hstep. simpl.
      by apply (IH Hns).
Qed.

Lemma column_name_in_range (strata : list string) :
  Forall (λ n, is_Ok (column_name strata n)) (seq 0 (length strata + 1)).
Proof.
  apply Forall_forall. intros n [_ Hn]%elem_of_seq.
  destruct n as [|k]; simpl; [by eexists|].
  unfold index. destruct (lookup_lt_is_Some_2 strata k) as [x ->]; [lia|].
  by eexists.
Qed.

(** Every melted row carries the name of one of the compartments. *)
Lemma melt_variable (model : model_object) (melted : dataframe) (r : row) :
  melt model = Ok melted → r ∈ melted →
  ∃ name, name ∈ compartment_names model
          ∧ r !! "variable" = Some (CStr name).
Proof.
  unfold melt. case_bool_decide; [|done]. intros [= <-].
  intros (rows & Hr & Hrows)%list_elem_of_join.
  apply list_elem_of_lookup in Hrows as [j Hj].
  rewrite list_lookup_imap in Hj.
  destruct (compartment_names model !! j) as [name|] eqn:Hname; [|done].
  simpl in Hj. injection Hj as <-.
  destruct (decide (name = "times")); [by apply elem_of_nil in Hr|].
  apply list_elem_of_lookup in Hr as [i Hi].
  rewrite list_lookup_imap in Hi.
  destruct (times model !! i) as [t|]; [|done]. simpl in Hi.
  injection Hi as <-. exists name. split.
  - by eapply list_elem_of_lookup_2.
  - by vm_compute.
Qed.

Lemma Forall_exists_Forall2 {A B} (P : A → B → Prop) (l : list A) :
  Forall (λ x, ∃ y, P x y) l → ∃ k, Forall2 P l k.
Proof.
  induction 1 as [|x l [y Hy] _ [k Hk]].
  - by exists [].
  - exists (y :: k). by constructor.
Qed.




End TbModelFacts.

(** * Properties of calibration.py *)

Module CalibrationFacts.
Import Calibration.

(** ** Running computations *)

Lemma eff_bind_Ok {W A B} (m : eff W A) (f : A → eff W B) (w w' : W) (a : A) :
  m w = (Ok a, w') → (m ≫= f) w = f a w'.
Proof. intros H. unfold mbind, eff_bind. by rewrite H. Qed.

Lemma eff_bind_Raise {W A B} (m : eff W A) (f : A → eff W B) (w w' : W)
    (e : exn) :
  m w = (Raise e, w') → (m ≫= f) w = (Raise e, w').
Proof. intros H. unfold mbind, eff_bind. by rewrite H. Qed.

Lemma for_in_cons {W A} (x : A) (l : list A) (body : A → eff W unit) :
  for_in (x :: l) body = body x ≫= λ _, for_in l body.
Proof. reflexivity. Qed.

(** ** Unspecified standard deviations *)

Lemma workout_target_kept (w : world) (i : nat) (t : dict) :
  is_Some (t !! "sd") → workout_target (i, t) w = (Ok tt, w).
Proof. intros [sd Hsd]. unfold workout_target. by rewrite Hsd. Qed.

Lemma workout_target_set (c : Calibration) (h : store)
    (ex : list (exn * string)) (done' todo : list dict) (t : dict)
    (values : value) (m : number) :
  t !! "sd" = None → t !! "values" = Some values → np_mean values = Ok m →
  workout_target (length done', t)
    {| self := set_targeted_outputs (done' ++ t :: todo) c;
       heap := h; constructed := ex |}
  = (Ok tt,
     {| self := set_targeted_outputs
                  (done' ++ <["sd" := VNum (scale (0.5 / 4) m)]> t :: todo) c;
        heap := h; constructed := ex |}).
Proof.
  intros Hsd Hvalues Hm. unfold workout_target, getitem.
  rewrite Hsd, Hvalues.
  erewrite eff_bind_Ok; [|reflexivity].
  erewrite eff_bind_Ok; [|unfold lift; by rewrite Hm].
  unfold on_self, modify. simpl.
  assert (alter <["sd" := VNum (scale (0.5 / 4) m)]> (length done')
            (done' ++ t :: todo)
          = done' ++ <["sd" := VNum (scale (0.5 / 4) m)]> t :: todo) as ->.
  { rewrite <- (Nat.add_0_r (length done')). by rewrite alter_app_r. }
  reflexivity.
Qed.

Lemma workout_loop (c : Calibration) (h : store) (ex : list (exn * string))
    (todo : list dict) :
  Forall (λ t, t !! "sd" = None → is_Ok (getitem t "values" ≫= np_mean)) todo →
  ∀ done' : list dict,
  ∃ todo' : list dict,
    for_in (imap (λ i t, (length done' + i, t)) todo) workout_target
      {| self := set_targeted_outputs (done' ++ todo) c;
         heap := h; constructed := ex |}
    = (Ok tt, {| self := set_targeted_outputs (done' ++ todo') c;
                 heap := h; constructed := ex |})
    ∧ Forall2 sd_worked_out todo todo'.
Proof.
  induction 1 as [|t todo Ht _ IH]; intros done'.
  - exists []. by split.
  - assert (∀ u : dict,
      for_in (imap ((λ i t, (length done' + i, t)) ∘ S) todo) workout_target
        {| self := set_targeted_outputs (done' ++ u :: todo) c;
           heap := h; constructed := ex |}
      = for_in (imap (λ i t, (length (done' ++ [u]) + i, t)) todo)
          workout_target
          {| self := set_targeted_outputs ((done' ++ [u]) ++ todo) c;
             heap := h; constructed := ex |}) as Hshift.
    { intros u. rewrite <- (assoc_L (++)). simpl. f_equal.
      apply imap_ext. intros i x _. simpl. rewrite length_app. simpl.
      f_equal. lia. }
    rewrite imap_cons, for_in_cons, Nat.add_0_r.
    destruct (t !! "sd") as [sd|] eqn:Hsd.
    + destruct (IH (done' ++ [t])) as (todo' & Hrun & Hall).
      exists (t :: todo'). split.
      * erewrite eff_bind_Ok; [|by apply workout_target_kept].
        rewrite Hshift, Hrun. by rewrite <- (assoc_L (++)).
      * constructor; [|done]. unfold sd_worked_out. by rewrite Hsd.
    + destruct (Ht eq_refl) as [m Hm]. unfold getitem in Hm.
      destruct (t !! "values") as [values|] eqn:Hvalues; [|done].
      simpl in Hm.
      destruct (IH (done' ++ [<["sd" := VNum (scale (0.5 / 4) m)]> t]))
        as (todo' & Hrun & Hall).
      exists (<["sd" := VNum (scale (0.5 / 4) m)]> t :: todo'). split.
      * erewrite eff_bind_Ok; [|by eapply workout_target_set].
        rewrite Hshift, Hrun. by rewrite <- (assoc_L (++)).
      * constructor; [|done]. unfold sd_worked_out. rewrite Hsd.
        exists values, m. split_and!; [done.. | by rewrite lookup_insert_eq |].
        intros k Hk. by rewrite lookup_insert_ne.
Qed.

(** C10: [workout_unspecified_sds] sets [target['sd']] to [0.5 / 4] times
    the mean of [target['values']] for exactly those targeted outputs that
    lack an [sd] key, and leaves every target that already has an [sd]
    key, and every other field of every target, unchanged; nothing else of
    the instance or of the store changes. *)
Theorem workout_unspecified_sds_spec (w : world) :
  Forall (λ t, t !! "sd" = None → is_Ok (getitem t "values" ≫= np_mean))
         (targeted_outputs (self w)) →
  ∃ targets' : list dict,
    workout_unspecified_sds w
    = (Ok tt, {| self := set_targeted_outputs targets' (self w);
                 heap := heap w; constructed := constructed w |})
    ∧ Forall2 sd_worked_out (targeted_outputs (self w)) targets'.
Proof.
  intros Hall. destruct w as [c h ex]. simpl in *.
  destruct (workout_loop c h ex (targeted_outputs c) Hall [])
    as (targets' & Hrun & Hrel).
  exists targets'. split; [|done].
  unfold workout_unspecified_sds. erewrite eff_bind_Ok; [|reflexivity].
  simpl in *. unfold enumerate.
  replace (set_targeted_outputs (targeted_outputs c) c) with c in Hrun
    by (by destruct c).
  exact Hrun.
Qed.

Lemma workout_unspecified_sds_witness :
  let targets : list dict :=
    [ {[ "output_key" := VStr "prevXinfectiousXamongXage_15";
         "years" := VList [2015; 2016]%Q;
         "values" := VList [0.005; 0.004]%Q ]};
      {[ "output_key" := VStr "prevXlatentXamongXage_5";
         "years" := VList [2014]%Q;
         "values" := VList [0.096]%Q;
         "sd" := VNum (Real 0.012) ]} ] in
  let w := fresh_world par_priors targets [] in
  ∃ targets' : list dict,
    workout_unspecified_sds w
    = (Ok tt, {| self := set_targeted_outputs targets' (self w);
                 heap := heap w; constructed := constructed w |})
    ∧ Forall2 sd_worked_out targets targets'.
Proof.
  intros targets w.
  apply (workout_unspecified_sds_spec w).
  repeat (apply Forall_cons; split; [intros _; by eexists|]).
  by apply Forall_nil.
Defined.

(** ** Unsupported fitting modes *)

Section Fitting.
Context {RV Theta : Type}.
Context (pm_Uniform : string → Q → Q → result RV).
Context (as_tensor_variable : list RV → result Theta).
Context (pm_DensityDist : Theta → result unit).
Context (pm_find_MAP : Theta → eff world (gmap string Q)).
Context (pm_sample : nat → step_method → nat → nat → bool → Theta →
                     eff world (list (gmap string Q))).


End Fitting.



(** ** Reading and copying in the store *)

Lemma read_model_Ok (h : store) (l : loc) (m : StratifiedModel) :
  h !! l = Some (OModel m) → read_model l h = (Ok m, h).
Proof. intros H. unfold read_model, read, mbind, eff_bind. by rewrite H. Qed.

Lemma read_names_Ok (h : store) (l : loc) (x : list string) :
  h !! l = Some (ONames x) → read_names l h = (Ok x, h).
Proof. intros H. unfold read_names, read, mbind, eff_bind. by rewrite H. Qed.

Lemma read_flows_Ok (h : store) (l : loc) (x : list (gmap string string)) :
  h !! l = Some (OFlows x) → read_flows l h = (Ok x, h).
Proof. intros H. unfold read_flows, read, mbind, eff_bind. by rewrite H. Qed.

Lemma read_parameters_Ok (h : store) (l : loc) (x : gmap string Q) :
  h !! l = Some (OParameters x) → read_parameters l h = (Ok x, h).
Proof.
  intros H. unfold read_parameters, read, mbind, eff_bind. by rewrite H.
Qed.

Lemma read_time_variants_Ok (h : store) (l : loc)
    (x : gmap string (Q → result Q)) :
  h !! l = Some (OTimeVariants x) → read_time_variants l h = (Ok x, h).
Proof.
  intros H. unfold read_time_variants, read, mbind, eff_bind. by rewrite H.
Qed.

(** A read leaves the store as it is, whatever it returns. *)
Lemma read_post_processing_store (h : store) (l : loc) :
  (read_post_processing l h).2 = h
  ∧ ∀ p, (read_post_processing l h).1 = Ok p →
         h !! l = Some (OPostProcessing p).
Proof.
  unfold read_post_processing, read, mbind, eff_bind.
  destruct (h !! l) as [[]|]; simpl; split; try done; by intros ? [= ->].
Qed.

Lemma read_model_store (h : store) (l : loc) : (read_model l h).2 = h.
Proof.
  unfold read_model, read, mbind, eff_bind. by destruct (h !! l) as [[]|].
Qed.

Lemma read_names_store (h : store) (l : loc) : (read_names l h).2 = h.
Proof.
  unfold read_names, read, mbind, eff_bind. by destruct (h !! l) as [[]|].
Qed.

Lemma fresh_ne (h : store) (k : loc) : k ∈ dom h → k ≠ fresh (dom h).
Proof. intros Hk ->. by apply (is_fresh (dom h)). Qed.

Lemma dom_insert_here (h : store) (l : loc) (o : obj) : l ∈ dom (<[l := o]> h).
Proof. rewrite dom_insert_L. apply elem_of_union_l. by apply elem_of_singleton. Qed.

Lemma dom_insert_mono (h : store) (l k : loc) (o : obj) :
  k ∈ dom h → k ∈ dom (<[l := o]> h).
Proof. intros Hk. rewrite dom_insert_L. by apply elem_of_union_r. Qed.

Lemma dom_lookup (h : store) (k : loc) (o : obj) : h !! k = Some o → k ∈ dom h.
Proof. intros H. apply elem_of_dom. by eexists. Qed.

Create HintDb store.
#[local] Hint Resolve fresh_ne dom_insert_here dom_insert_mono dom_lookup
  : store.

Lemma deepcopy_copy (h : store) (l : loc) (m : StratifiedModel)
    (names : list string) (fl : list (gmap string string))
    (ps : gmap string Q) (tv : gmap string (Q → result Q)) :
  h !! l = Some (OModel m) →
  h !! compartment_names m = Some (ONames names) →
  h !! flows m = Some (OFlows fl) →
  h !! parameters m = Some (OParameters ps) →
  h !! time_variants m = Some (OTimeVariants tv) →
  ∃ rm m' h', deepcopy l h = (Ok rm, h')
              ∧ running_copy h rm m' names fl tv ps h'.
Proof.
  intros Hm Hn Hf Hp Ht. unfold deepcopy.
  erewrite eff_bind_Ok; [|by apply read_model_Ok].
  erewrite eff_bind_Ok; [|by apply read_names_Ok].
  erewrite eff_bind_Ok; [|by apply read_flows_Ok].
  erewrite eff_bind_Ok; [|by apply read_parameters_Ok].
  erewrite eff_bind_Ok; [|by apply read_time_variants_Ok].
  set (l1 := fresh (dom h)). set (h1 := <[l1 := ONames names]> h).
  erewrite (eff_bind_Ok _ _ h h1 l1); [|reflexivity].
  set (l2 := fresh (dom h1)). set (h2 := <[l2 := OFlows fl]> h1).
  erewrite (eff_bind_Ok _ _ h1 h2 l2); [|reflexivity].
  set (l3 := fresh (dom h2)). set (h3 := <[l3 := OParameters ps]> h2).
  erewrite (eff_bind_Ok _ _ h2 h3 l3); [|reflexivity].
  set (l4 := fresh (dom h3)). set (h4 := <[l4 := OTimeVariants tv]> h3).
  erewrite (eff_bind_Ok _ _ h3 h4 l4); [|reflexivity].
  set (m' := {| compartment_names := l1; flows := l2; parameters := l3;
                time_variants := l4; outputs := outputs m |}).
  set (l5 := fresh (dom h4)).
  exists l5, m', (<[l5 := OModel m']> h4). split; [reflexivity|].
  assert (∀ k, k ∈ dom h → k ≠ l1 ∧ k ≠ l2 ∧ k ≠ l3 ∧ k ≠ l4 ∧ k ≠ l5)
    as Hold.
  { intros k Hk. unfold l1, l2, l3, l4, l5, h4, h3, h2, h1.
    split_and!; auto 10 with store. }
  assert (l1 ≠ l2 ∧ l1 ≠ l3 ∧ l1 ≠ l4 ∧ l1 ≠ l5) as (N12 & N13 & N14 & N15).
  { unfold l2, l3, l4, l5, h4, h3, h2, h1. split_and!; auto 10 with store. }
  assert (l2 ≠ l3 ∧ l2 ≠ l4 ∧ l2 ≠ l5) as (N23 & N24 & N25).
  { unfold l3, l4, l5, h4, h3, h2. split_and!; auto 10 with store. }
  assert (l3 ≠ l4 ∧ l3 ≠ l5) as (N34 & N35).
  { unfold l4, l5, h4, h3. split_and!; auto 10 with store. }
  assert (l4 ≠ l5) as N45.
  { unfold l5, h4. auto 10 with store. }
  split; simpl.
  - intros k o Hk _.
    destruct (Hold k (dom_lookup _ _ _ Hk)) as (K1 & K2 & K3 & K4 & K5).
    unfold h4, h3, h2, h1. by rewrite !lookup_insert_ne by done.
  - unfold h4, h3, h2, h1. intros k Hk. auto 10 with store.
  - repeat (apply Forall_cons; split;
              [intros Hin; by destruct (Hold _ Hin) as (?&?&?&?&?)|]).
    by apply Forall_nil.
  - exists (outputs m). by rewrite lookup_insert_eq.
  - unfold h4, h3, h2, h1.
    rewrite !lookup_insert_ne by done. by rewrite lookup_insert_eq.
  - unfold h4, h3, h2.
    rewrite !lookup_insert_ne by done. by rewrite lookup_insert_eq.
  - unfold h4, h3.
    rewrite !lookup_insert_ne by done. by rewrite lookup_insert_eq.
  - unfold h4.
    rewrite !lookup_insert_ne by done. by rewrite lookup_insert_eq.
Qed.

(** ** What keeps the copy apart from the rest of the store *)

Lemma lookup_differ (h : store) (k1 k2 : loc) (o1 o2 : obj) :
  h !! k1 = Some o1 → h !! k2 = Some o2 → o1 ≠ o2 → k1 ≠ k2.
Proof. intros H1 H2 Hne ->. congruence. Qed.

Section Copy.
Context (h0 : store) (rm : loc) (m' : StratifiedModel).
Context (names : list string) (fl : list (gmap string string)).
Context (tv : gmap string (Q → result Q)).

Lemma copy_fresh_parameters (ps : gmap string Q) (h : store) :
  running_copy h0 rm m' names fl tv ps h →
  (rm ∉ dom h0) ∧ (parameters m' ∉ dom h0).
Proof.
  intros [_ _ Hfresh _ _ _ _ _].
  apply Forall_cons in Hfresh as [H1 Hfresh].
  apply Forall_cons in Hfresh as [_ Hfresh].
  apply Forall_cons in Hfresh as [_ Hfresh].
  by apply Forall_cons in Hfresh as [H4 _].
Qed.

(** Writing the parameter map of the copy. *)
Lemma running_copy_set_parameters (ps ps' : gmap string Q) (h : store) :
  running_copy h0 rm m' names fl tv ps h →
  running_copy h0 rm m' names fl tv ps'
    (<[parameters m' := OParameters ps']> h).
Proof.
  intros Hc. destruct (copy_fresh_parameters ps h Hc) as [_ Hp].
  destruct Hc as [Hframe Hdom Hfresh [out Hrm] Hn Hf Hps Ht].
  split.
  - intros l o Hl Hpp. rewrite lookup_insert_ne; [by apply Hframe|].
    intros <-. by apply Hp, (dom_lookup _ _ o).
  - intros k Hk. by apply dom_insert_mono, Hdom.
  - done.
  - exists out. rewrite lookup_insert_ne; [done|].
    by eapply not_eq_sym, lookup_differ.
  - rewrite lookup_insert_ne; [done|]. by eapply not_eq_sym, lookup_differ.
  - rewrite lookup_insert_ne; [done|]. by eapply not_eq_sym, lookup_differ.
  - by rewrite lookup_insert_eq.
  - rewrite lookup_insert_ne; [done|]. by eapply not_eq_sym, lookup_differ.
Qed.

(** Writing the output matrix of the copy. *)
Lemma running_copy_set_outputs (ps : gmap string Q) (h : store)
    (out : option (list (list Q))) :
  running_copy h0 rm m' names fl tv ps h →
  running_copy h0 rm m' names fl tv ps
    (<[rm := OModel {| compartment_names := compartment_names m';
                       flows := flows m';
                       parameters := parameters m';
                       time_variants := time_variants m';
                       outputs := out |}]> h).
Proof.
  intros Hc. destruct (copy_fresh_parameters ps h Hc) as [Hr _].
  destruct Hc as [Hframe Hdom Hfresh [out0 Hrm] Hn Hf Hps Ht].
  split.
  - intros l o Hl Hpp. rewrite lookup_insert_ne; [by apply Hframe|].
    intros <-. by apply Hr, (dom_lookup _ _ o).
  - intros k Hk. by apply dom_insert_mono, Hdom.
  - done.
  - exists out. by rewrite lookup_insert_eq.
  - rewrite lookup_insert_ne; [done|]. by eapply lookup_differ.
  - rewrite lookup_insert_ne; [done|]. by eapply lookup_differ.
  - rewrite lookup_insert_ne; [done|]. by eapply lookup_differ.
  - rewrite lookup_insert_ne; [done|]. by eapply lookup_differ.
Qed.

(** Writing any object where the store holds nothing or a post-processing
    object. *)
Lemma running_copy_insert_other (ps : gmap string Q) (h : store) (k : loc)
    (o : obj) :
  (h !! k = None ∨ ∃ p, h !! k = Some (OPostProcessing p)) →
  running_copy h0 rm m' names fl tv ps h →
  running_copy h0 rm m' names fl tv ps (<[k := o]> h).
Proof.
  intros Hk [Hframe Hdom Hfresh [out Hrm] Hn Hf Hps Ht].
  assert (∀ l o', h !! l = Some o' → (∀ p, o' ≠ OPostProcessing p) → k ≠ l)
    as Hne.
  { intros l o' Hl Hpp ->. destruct Hk as [Hk|[p Hk]]; [congruence|].
    rewrite Hk in Hl. injection Hl as <-. by destruct (Hpp p). }
  split.
  - intros l o' Hl Hpp. rewrite lookup_insert_ne; [by apply Hframe|].
    eapply Hne; [|done]. by apply Hframe.
  - intros l Hl. by apply dom_insert_mono, Hdom.
  - done.
  - exists out. rewrite lookup_insert_ne; [done|]. by eapply Hne.
  - rewrite lookup_insert_ne; [done|]. by eapply Hne.
  - rewrite lookup_insert_ne; [done|]. by eapply Hne.
  - rewrite lookup_insert_ne; [done|]. by eapply Hne.
  - rewrite lookup_insert_ne; [done|]. by eapply Hne.
Qed.

Lemma set_parameter_copy (ps : gmap string Q) (h : store) (name : string)
    (x : Q) :
  running_copy h0 rm m' names fl tv ps h →
  ∃ h', set_parameter rm name x h = (Ok tt, h')
        ∧ running_copy h0 rm m' names fl tv (<[name := x]> ps) h'.
Proof.
  intros Hc. exists (<[parameters m' := OParameters (<[name := x]> ps)]> h).
  split; [|by apply running_copy_set_parameters with ps].
  destruct Hc as [_ _ _ [out Hrm] _ _ Hps _]. unfold set_parameter.
  erewrite eff_bind_Ok; [|by apply read_model_Ok].
  erewrite eff_bind_Ok; [|by apply read_parameters_Ok].
  reflexivity.
Qed.

Section Engine.
Context (integrate :
  list string → list (gmap string string) → gmap string Q →
  gmap string (Q → result Q) → result (list (list Q))).
Context (extract :
  option (list (list Q)) → list string → list string →
  gmap string (list Q) → result (gmap string (list Q))).

Lemma run_model_copy (ps : gmap string Q) (h : store) :
  running_copy h0 rm m' names fl tv ps h →
  running_copy h0 rm m' names fl tv ps (run_model integrate rm h).2.
Proof.
  intros Hc. pose proof Hc as [_ _ _ [out Hrm] Hn Hf Hps Ht].
  unfold run_model.
  erewrite eff_bind_Ok; [|by apply read_model_Ok].
  erewrite eff_bind_Ok; [|by apply read_names_Ok].
  erewrite eff_bind_Ok; [|by apply read_flows_Ok].
  erewrite eff_bind_Ok; [|by apply read_parameters_Ok].
  erewrite eff_bind_Ok; [|by apply read_time_variants_Ok].
  simpl. destruct (integrate names fl ps tv) as [out'|e].
  - erewrite eff_bind_Ok; [|reflexivity]. simpl.
    by apply running_copy_set_outputs.
  - by erewrite eff_bind_Raise; [|reflexivity].
Qed.

Lemma generate_outputs_copy (ps : gmap string Q) (h : store) (pp : loc) :
  running_copy h0 rm m' names fl tv ps h →
  running_copy h0 rm m' names fl tv ps (generate_outputs extract pp h).2.
Proof.
  intros Hc. unfold generate_outputs.
  destruct (read_post_processing_store h pp) as [Hst Hpp].
  destruct (read_post_processing pp h) as [[p|e] h1] eqn:Hread;
    simpl in Hst; subst h1.
  2:{ by erewrite eff_bind_Raise. }
  erewrite eff_bind_Ok; [|done].
  pose proof (read_model_store h (model p)) as Hst.
  destruct (read_model (model p) h) as [[m|e] h1] eqn:Hreadm;
    simpl in Hst; subst h1.
  2:{ by erewrite eff_bind_Raise. }
  erewrite eff_bind_Ok; [|done].
  pose proof (read_names_store h (compartment_names m)) as Hst.
  destruct (read_names (compartment_names m) h) as [[ns|e] h1] eqn:Hreadn;
    simpl in Hst; subst h1.
  2:{ by erewrite eff_bind_Raise. }
  erewrite eff_bind_Ok; [|done].
  destruct (extract (outputs m) ns (requested_outputs p) (requested_times p))
    as [g|e].
  - erewrite eff_bind_Ok; [|reflexivity]. simpl.
    apply running_copy_insert_other; [|done]. right. exists p. by apply Hpp.
  - by erewrite eff_bind_Raise; [|reflexivity].
Qed.

Lemma new_PostProcessing_copy (ps : gmap string Q) (h : store) (l : loc)
    (ro : list string) (rt : gmap string (list Q)) :
  running_copy h0 rm m' names fl tv ps h →
  running_copy h0 rm m' names fl tv ps
    (new_PostProcessing extract l ro rt h).2.
Proof.
  intros Hc. unfold new_PostProcessing.
  erewrite eff_bind_Ok; [|reflexivity].
  set (pp := fresh (dom h)).
  set (h1 := <[pp := _]> h).
  assert (running_copy h0 rm m' names fl tv ps h1) as Hc1.
  { apply running_copy_insert_other; [|done]. left.
    apply not_elem_of_dom, is_fresh. }
  pose proof (generate_outputs_copy ps h1 pp Hc1) as Hc2.
  destruct (generate_outputs extract pp h1) as [[[]|e] h2] eqn:Hgen;
    simpl in Hc2.
  - erewrite eff_bind_Ok; [|exact Hgen]. exact Hc2.
  - erewrite eff_bind_Raise; [|exact Hgen]. exact Hc2.
Qed.

Lemma refresh_post_processing_copy (ps : gmap string Q) (h : store)
    (pp l : loc) :
  running_copy h0 rm m' names fl tv ps h →
  running_copy h0 rm m' names fl tv ps
    (refresh_post_processing extract pp l h).2.
Proof.
  intros Hc. unfold refresh_post_processing.
  destruct (read_post_processing_store h pp) as [Hst Hpp].
  destruct (read_post_processing pp h) as [[p|e] h1] eqn:Hread;
    simpl in Hst; subst h1.
  2:{ by erewrite eff_bind_Raise. }
  erewrite eff_bind_Ok; [|done].
  erewrite eff_bind_Ok; [|reflexivity].
  apply generate_outputs_copy, running_copy_insert_other; [|done].
  right. exists p. by apply Hpp.
Qed.

End Engine.
End Copy.

(** ** One run of the model *)

Lemma on_heap_run {A} (m : eff store A) (w : world) :
  on_heap m w
  = ((m (heap w)).1,
     {| self := self w; heap := (m (heap w)).2;
        constructed := constructed w |}).
Proof. unfold on_heap. by destruct (m (heap w)). Qed.

Lemma for_each_Forall2 {A B} (f : A → result B) (l : list A) (ys : list B) :
  for_each f l = Ok ys → Forall2 (λ x y, f x = Ok y) l ys.
Proof.
  revert ys. induction l as [|x l IH]; intros ys; simpl.
  - intros [= <-]. constructor.
  - destruct (f x) as [y|e] eqn:Hx; simpl; [|done].
    destruct (for_each f l) as [ys'|e]; simpl; [|done].
    intros [= <-]. constructor; [done | by apply IH].
Qed.

Section Run.
Context (model_builder : option Q → eff store loc).
Context (integrate :
  list string → list (gmap string string) → gmap string Q →
  gmap string (Q → result Q) → result (list (list Q))).
Context (extract :
  option (list (list Q)) → list string → list string →
  gmap string (list Q) → result (gmap string (list Q))).
Context (w0 : world) (rm : loc) (m' : StratifiedModel).
Context (names : list string) (fl : list (gmap string string)).
Context (tv : gmap string (Q → result Q)).
Context (Hnames : param_names (priors (self w0)) = Ok (param_list (self w0))).
Context (Hstart : "start_time" ∉ param_list (self w0)).

Lemma running_world_heap (ps ps' : gmap string Q) (w : world) (h' : store) :
  running_world w0 rm m' names fl tv ps w →
  running_copy (heap w0) rm m' names fl tv ps' h' →
  running_world w0 rm m' names fl tv ps'
    {| self := self w; heap := h'; constructed := constructed w |}.
Proof. intros (_ & H) Hc. by split. Qed.

Lemma the_running_model_run (ps : gmap string Q) (w : world) :
  running_world w0 rm m' names fl tv ps w →
  the_running_model w = (Ok rm, w).
Proof.
  intros (_ & Hrm & _). unfold the_running_model.
  erewrite eff_bind_Ok; [|reflexivity]. by rewrite Hrm.
Qed.

Lemma update_post_processing_world (ps : gmap string Q) (w : world) :
  running_world w0 rm m' names fl tv ps w →
  running_world w0 rm m' names fl tv ps
    (update_post_processing extract w).2.
Proof.
  intros Hw. pose proof Hw as (Hc & Hself).
  unfold update_post_processing.
  erewrite eff_bind_Ok; [|reflexivity].
  destruct (post_processing (self w)) as [pp|].
  - erewrite eff_bind_Ok; [|by eapply the_running_model_run].
    rewrite on_heap_run. simpl.
    eapply running_world_heap; [done|]. by apply refresh_post_processing_copy.
  - destruct (for_each output_key (targeted_outputs (self w))) as [ro|e].
    2:{ by erewrite eff_bind_Raise; [|reflexivity]. }
    erewrite eff_bind_Ok; [|reflexivity].
    destruct (requested_times_of (targeted_outputs (self w)) ∅) as [rt|e].
    2:{ by erewrite eff_bind_Raise; [|reflexivity]. }
    erewrite eff_bind_Ok; [|reflexivity].
    erewrite eff_bind_Ok; [|by eapply the_running_model_run].
    pose proof (new_PostProcessing_copy (heap w0) rm m' names fl tv extract
                  ps (heap w) rm ro rt Hc) as Hc1.
    pose proof (on_heap_run (new_PostProcessing extract rm ro rt) w) as Hrun.
    destruct ((new_PostProcessing extract rm ro rt (heap w)).1) as [pp|e].
    + erewrite eff_bind_Ok; [|exact Hrun]. simpl.
      split; [exact Hc1 | exact Hself].
    + erewrite eff_bind_Raise; [|exact Hrun]. simpl.
      split; [exact Hc1 | exact Hself].
Qed.

Lemma override_out_of_range (params : list Q) (w : world) (i : nat) :
  priors (self w) !! i = None →
  override params i w = (Raise IndexError, w).
Proof.
  intros Hi. unfold override.
  erewrite eff_bind_Ok; [|reflexivity].
  erewrite eff_bind_Raise; [done|]. unfold lift, index. by rewrite Hi.
Qed.

Lemma override_step (params : list Q) (ps : gmap string Q) (w : world)
    (i : nat) (prior : dict) (name : string) (x : Q) :
  running_world w0 rm m' names fl tv ps w →
  priors (self w) !! i = Some prior →
  param_name prior = Ok name →
  name ≠ "start_time" →
  params !! i = Some x →
  ∃ w', override params i w = (Ok tt, w')
        ∧ running_world w0 rm m' names fl tv (<[name := x]> ps) w'.
Proof.
  intros Hw Hi Hname Hne Hx. pose proof Hw as (Hc & _).
  destruct (set_parameter_copy (heap w0) rm m' names fl tv ps (heap w)
              name x Hc) as (h' & Hset & Hc').
  exists {| self := self w; heap := h'; constructed := constructed w |}.
  split; [|by eapply running_world_heap].
  unfold override.
  erewrite eff_bind_Ok; [|reflexivity].
  erewrite eff_bind_Ok; [|unfold lift, index; by rewrite Hi].
  erewrite eff_bind_Ok; [|unfold lift; by rewrite Hname].
  rewrite decide_True by done.
  erewrite eff_bind_Ok; [|unfold lift, index; by rewrite Hx].
  erewrite eff_bind_Ok; [|by eapply the_running_model_run].
  rewrite on_heap_run. by rewrite Hset.
Qed.

Lemma override_loop (params : list Q) (n : nat) :
  ∀ (k : nat) (ps : gmap string Q) (w : world),
    running_world w0 rm m' names fl tv ps w →
    k + n = length params →
    running_world w0 rm m' names fl tv
      (overridden (drop k (param_list (self w0))) (drop k params) ps)
      (for_in (seq k n) (override params) w).2.
Proof.
  pose proof (for_each_Forall2 _ _ _ Hnames) as Hall.
  induction n as [|n IH]; intros k ps w Hw Hk.
  - simpl. rewrite (drop_ge params) by lia. unfold overridden.
    by rewrite zip_with_nil_r.
  - change (seq k (S n)) with (k :: seq (S k) n). rewrite for_in_cons.
    pose proof Hw as (_ & _ & _ & Hpriors & _).
    destruct (priors (self w0) !! k) as [prior|] eqn:Hprior.
    + destruct (Forall2_lookup_l _ _ _ _ _ Hall Hprior)
        as (name & Hlist & Hname).
      destruct (lookup_lt_is_Some_2 params k) as [x Hx]; [lia|].
      assert (name ≠ "start_time") as Hne.
      { intros ->. by apply Hstart, (list_elem_of_lookup_2 _ k). }
      destruct (override_step params ps w k prior name x)
        as (w' & Hrun & Hw'); [done | by rewrite Hpriors | done..|].
      erewrite eff_bind_Ok; [|exact Hrun].
      rewrite (drop_S _ name k), (drop_S _ x k) by done.
      unfold overridden. simpl. apply IH; [done | lia].
    + erewrite eff_bind_Raise;
        [|apply override_out_of_range; by rewrite Hpriors].
      simpl. rewrite (drop_ge (param_list (self w0))).
      * by unfold overridden.
      * apply Forall2_length in Hall. rewrite <- Hall.
        by apply lookup_ge_None.
Qed.

End Run.

(** C2: for every Calibration instance whose priors do not include
    [start_time] and for every parameter vector, [run_model_with_params]
    operates on a deep copy of [base_model]: after the call, whether it
    returned or raised, [base_model] with its compartment names, flow list,
    parameter map and time-variant map is unchanged, as is every other
    object the store held except the post-processing object; the running
    model and its containers are objects the store did not hold before,
    and the supplied overrides are written into the parameter map of that
    running model only. *)
Theorem run_model_with_params_frame
    (model_builder : option Q → eff store loc)
    (integrate :
       list string → list (gmap string string) → gmap string Q →
       gmap string (Q → result Q) → result (list (list Q)))
    (extract :
       option (list (list Q)) → list string → list string →
       gmap string (list Q) → result (gmap string (list Q)))
    (w : world) (params : list Q) (m : StratifiedModel)
    (names : list string) (fl : list (gmap string string))
    (ps : gmap string Q) (tv : gmap string (Q → result Q)) :
  "start_time" ∉ param_list (self w) →
  param_names (priors (self w)) = Ok (param_list (self w)) →
  heap w !! base_model (self w) = Some (OModel m) →
  heap w !! compartment_names m = Some (ONames names) →
  heap w !! flows m = Some (OFlows fl) →
  heap w !! parameters m = Some (OParameters ps) →
  heap w !! time_variants m = Some (OTimeVariants tv) →
  let w' := (run_model_with_params model_builder integrate extract
               params w).2 in
  (base_model (self w') = base_model (self w)
   ∧ heap w' !! base_model (self w) = Some (OModel m)
   ∧ heap w' !! compartment_names m = Some (ONames names)
   ∧ heap w' !! flows m = Some (OFlows fl)
   ∧ heap w' !! parameters m = Some (OParameters ps)
   ∧ heap w' !! time_variants m = Some (OTimeVariants tv))
  ∧ ∃ rm m',
      running_world w rm m' names fl tv
        (overridden (param_list (self w)) params ps) w'.
Proof.
  intros Hstart Hnames Hm Hn Hf Hp Ht w'.
  cut (∃ rm m', running_world w rm m' names fl tv
                  (overridden (param_list (self w)) params ps) w').
  { intros (rm & m' & Hw'). split; [|by exists rm, m'].
    destruct Hw' as ([Hframe _ _ _ _ _ _ _] & _ & Hbase & _).
    split_and!; [done | by apply Hframe..]. }
  destruct (deepcopy_copy (heap w) (base_model (self w)) m names fl ps tv)
    as (rm & m' & h1 & Hcopy & Hc1); [done..|].
  exists rm, m'. subst w'. unfold run_model_with_params.
  erewrite eff_bind_Ok; [|reflexivity].
  rewrite decide_False by done.
  set (w1 := {| self := set_running_model (Some rm) (self w); heap := h1;
                constructed := constructed w |}).
  assert (running_world w rm m' names fl tv ps w1) as Hw1 by by split.
  erewrite (eff_bind_Ok _ _ w w1 tt).
  2:{ erewrite eff_bind_Ok; cycle 1.
      - rewrite on_heap_run. by rewrite Hcopy.
      - reflexivity. }
  pose proof (override_loop w rm m' names fl tv Hnames Hstart params
                (length params) 0 ps w1 Hw1 eq_refl) as Hw2.
  rewrite !drop_0 in Hw2.
  destruct (for_in (seq 0 (length params)) (override params) w1)
    as [[[]|e] w2] eqn:Hloop; simpl in Hw2.
  2:{ by erewrite eff_bind_Raise. }
  erewrite eff_bind_Ok; [|done].
  erewrite eff_bind_Ok; [|by eapply the_running_model_run].
  pose proof (on_heap_run (run_model integrate rm) w2) as Hrun.
  assert (running_world w rm m' names fl tv
            (overridden (param_list (self w)) params ps)
            {| self := self w2;
               heap := (run_model integrate rm (heap w2)).2;
               constructed := constructed w2 |}) as Hw3.
  { eapply running_world_heap; [done|].
    apply run_model_copy. by destruct Hw2. }
  destruct ((run_model integrate rm (heap w2)).1) as [[]|e].
  - erewrite eff_bind_Ok; [|exact Hrun].
    by apply update_post_processing_world.
  - by erewrite eff_bind_Raise; [|exact Hrun].
Qed.

Lemma run_model_with_params_frame_witness :
  let w := fresh_world (take 2 par_priors) target_outputs
             ["contact_rate"; "late_progression"] in
  let w' := (run_model_with_params (λ _, alloc (ONames []))
               (λ _ _ _ _, Ok []) (λ _ _ _ _, Ok ∅)
               [30; 0.002]%Q w).2 in
  (base_model (self w') = 1%positive
   ∧ heap w' !! 1%positive = built_store !! 1%positive
   ∧ heap w' !! 2%positive = Some (ONames TbModel.compartments)
   ∧ heap w' !! 3%positive = Some (OFlows TbModel.standard_flows)
   ∧ heap w' !! 4%positive
     = Some (OParameters {[ "contact_rate" := 20%Q;
                            "case_detection" := 0%Q ]})
   ∧ heap w' !! 5%positive = Some (OTimeVariants ∅))
  ∧ ∃ rm m',
      running_world w rm m' TbModel.compartments TbModel.standard_flows ∅
        (overridden ["contact_rate"; "late_progression"] [30; 0.002]%Q
           {[ "contact_rate" := 20%Q; "case_detection" := 0%Q ]}) w'.
Proof.
  intros w w'.
  apply (run_model_with_params_frame (λ _, alloc (ONames []))
           (λ _ _ _ _, Ok []) (λ _ _ _ _, Ok ∅) w [30; 0.002]%Q
           {| compartment_names := 2%positive; flows := 3%positive;
              parameters := 4%positive; time_variants := 5%positive;
              outputs := None |}).
  - apply (bool_decide_unpack _). by vm_compute.
  - by vm_compute.
  - by vm_compute.
  - by vm_compute.
  - by vm_compute.
  - by vm_compute.
  - by vm_compute.
Defined.

(** With [copy.copy] in place of [copy.deepcopy] the override would land
    in the parameter map of [base_model]. *)
Example shallow_copy_shares_parameters :
  let w := fresh_world (take 2 par_priors) target_outputs
             ["contact_rate"; "late_progression"] in
  let w' := (run_model_with_params_shallow (λ _ _ _ _, Ok [])
               (λ _ _ _ _, Ok ∅) [30]%Q w).2 in
  heap w' !! 4%positive
  = Some (OParameters {[ "contact_rate" := 30%Q; "case_detection" := 0%Q ]}).
Proof. by vm_compute. Qed.

End CalibrationFacts.

(** * Further properties of tb_model.py *)

Module TbModelProps.
Import TbModel TbModelBuild TbModelFacts.

(** ** Proportions and rates *)

Lemma one_minus_nonzero (p : Q) : ¬ (p == 1)%Q → ¬ (1 - p == 0)%Q.
Proof.
  intros Hp H. apply Hp. rewrite <- (Qplus_0_l p), <- H. ring.
Qed.

Lemma convert_Ok (c p : Q) :
  ¬ (p == 1)%Q →
  convert_competing_proportion_to_rate c p = Ok (p * c / (1 - p))%Q.
Proof.
  intros Hp. unfold convert_competing_proportion_to_rate.
  destruct (Qeq_bool (1 - p) 0) eqn:E; [|done].
  apply Qeq_bool_iff in E. by destruct (one_minus_nonzero p Hp).
Qed.





(** X3: chaining with [return_function_of_function] is associative and
    has the function that returns its argument as unit on both sides,
    exceptions included: the chained function raises what the first
    failing link raises. *)
Theorem return_function_of_function_assoc {A B C D : Type}
    (f : A → result B) (g : B → result C) (h : C → result D) (x : A) :
  return_function_of_function (return_function_of_function f g) h x
  = return_function_of_function f (return_function_of_function g h) x
  ∧ return_function_of_function Ok f x = f x
  ∧ return_function_of_function f Ok x = f x.
Proof.
  unfold return_function_of_function, mbind, result_bind.
  by destruct (f x).
Qed.



(** ** The flow helpers on any list *)

(** X5: each of the three flow helpers keeps a well-formed list
    well-formed -- every flow it adds has a known type, a parameter name
    and an origin among the base compartments -- and lengthens the list by
    its own number of flows (two, three and two); and the helpers commute
    up to the order of the flows. *)
Theorem add_standard_flows_keep_well_formed (l : list flow) :
  Forall flow_ok l →
  (Forall flow_ok (add_standard_infection_flows l)
   ∧ Forall flow_ok (add_standard_latency_flows l)
   ∧ Forall flow_ok (add_standard_natural_history_flows l))
  ∧ (length (add_standard_infection_flows l) = length l + 2
     ∧ length (add_standard_latency_flows l) = length l + 3
     ∧ length (add_standard_natural_history_flows l) = length l + 2)
  ∧ (add_standard_latency_flows (add_standard_infection_flows l)
       ≡ₚ add_standard_infection_flows (add_standard_latency_flows l)
     ∧ add_standard_natural_history_flows (add_standard_latency_flows l)
       ≡ₚ add_standard_latency_flows (add_standard_natural_history_flows l)
     ∧ add_standard_natural_history_flows (add_standard_infection_flows l)
       ≡ₚ add_standard_infection_flows
            (add_standard_natural_history_flows l)).
Proof.
  intros Hl.
  unfold add_standard_infection_flows, add_standard_latency_flows,
    add_standard_natural_history_flows.
  split_and!.
  - apply Forall_app; split; [done|].
    repeat (apply Forall_cons; split; [known_flow|]). by apply Forall_nil.
  - apply Forall_app; split; [done|].
    repeat (apply Forall_cons; split; [known_flow|]). by apply Forall_nil.
  - apply Forall_app; split; [done|].
    repeat (apply Forall_cons; split; [known_flow|]). by apply Forall_nil.
  - by rewrite length_app.
  - by rewrite length_app.
  - by rewrite length_app.
  - rewrite <- !(assoc_L (++)). f_equiv. apply Permutation_app_comm.
  - rewrite <- !(assoc_L (++)). f_equiv. apply Permutation_app_comm.
  - rewrite <- !(assoc_L (++)). f_equiv. apply Permutation_app_comm.
Qed.

Lemma add_standard_flows_keep_well_formed_witness :
  Forall flow_ok (add_standard_natural_history_flows
                    (add_standard_infection_flows [])).
Proof.
  apply (add_standard_flows_keep_well_formed (add_standard_infection_flows [])).
  apply (add_standard_flows_keep_well_formed []). by apply Forall_nil.
Defined.

(** ** What the loop writes into a row *)

Lemma unpivot_row_step_inv (strata : list string) (r r' : row) (n : nat) :
  unpivot_row_step strata r n = Ok r' →
  ∃ name c, column_name strata n = Ok name ∧ r' = <[name := CStr c]> r.
Proof.
  unfold unpivot_row_step.
  destruct (column_name strata n) as [name|e]; simpl; [|done].
  unfold split_variable at 1.
  destruct (getitem r "variable" ≫= as_str) as [s|e] eqn:Hs.
  2:{ destruct (getitem r "variable") as [v|]; simpl in *; [|done].
      by rewrite Hs. }
  destruct (getitem r "variable") as [v|]; simpl in *; [|done].
  rewrite Hs. simpl.
  destruct (index (split "X" s) n) as [c|e]; simpl; [|done].
  destruct (decide (0 < n)).
  - unfold split_stratum, getitem. rewrite lookup_insert_eq. simpl.
    destruct (index (split "_" c) 1) as [c2|e]; simpl; [|done].
    intros [= <-]. exists name, c2. by rewrite insert_insert_eq.
  - intros [= <-]. by exists name, c.
Qed.

(** A column of the result is the one the frame had, or a string. *)
Lemma unpivot_row_columns (strata : list string) (ns : list nat) :
  ∀ (r r' : row),
    unpivot_row strata ns r = Ok r' →
    (∀ k, (∀ n, n ∈ ns → column_name strata n ≠ Ok k) → r' !! k = r !! k)
    ∧ (∀ n name, n ∈ ns → column_name strata n = Ok name →
         ∃ c, r' !! name = Some (CStr c))
    ∧ (∀ k c, r !! k = Some (CStr c) → ∃ c', r' !! k = Some (CStr c')).
Proof.
  induction ns as [|n ns IH]; intros r r' Hrun.
  - injection Hrun as <-. split_and!; [done | | by eauto].
    intros n name Hn. by apply elem_of_nil in Hn.
  - apply unpivot_row_cons in Hrun as (r1 & Hstep & Hrun).
    destruct (unpivot_row_step_inv _ _ _ _ Hstep) as (name1 & c1 & Hname1 & ->).
    destruct (IH _ _ Hrun) as (Hkeep & Hnew & Hstr).
    split_and!.
    + intros k Hk. rewrite Hkeep.
      * rewrite lookup_insert_ne; [done|]. intros ->.
        by apply (Hk n); [apply elem_of_cons; left|].
      * intros n' Hn'. apply Hk. by apply elem_of_cons; right.
    + intros n' name [->|Hn']%elem_of_cons Hname.
      * rewrite Hname1 in Hname. injection Hname as ->.
        eapply Hstr. by rewrite lookup_insert_eq.
      * by eapply Hnew.
    + intros k c Hk. destruct (decide (name1 = k)) as [->|Hne].
      * eapply Hstr. by rewrite lookup_insert_eq.
      * eapply Hstr. by rewrite lookup_insert_ne.
Qed.

Lemma column_name_elem (strata : list string) (n : nat) (name : string) :
  column_name strata n = Ok name →
  name = "compartment" ∨ name ∈ strata.
Proof.
  destruct n as [|k]; simpl.
  - intros [= <-]. by left.
  - unfold index. destruct (strata !! k) as [x|] eqn:Hk; [|done].
    intros [= <-]. right. by eapply list_elem_of_lookup_2.
Qed.

(** X6: when [unpivot_outputs] returns, the frame has one row per melted
    row and in the same order; the [variable] column is gone; the
    [compartment] column and the column of every stratification hold
    strings; and the [times] and [value] cells are those of the melted
    row unless a stratification is itself named [times] or [value]. *)
Theorem unpivot_outputs_shape (model : model_object)
    (melted df : dataframe) :
  melt model = Ok melted →
  unpivot_outputs model = Ok df →
  length df = length melted
  ∧ ∀ i r, melted !! i = Some r →
      ∃ r', df !! i = Some r'
            ∧ r' !! "variable" = None
            ∧ (∃ c, r' !! "compartment" = Some (CStr c))
            ∧ Forall (λ s, s ≠ "variable" → ∃ c, r' !! s = Some (CStr c))
                     (strata model)
            ∧ ("times" ∉ strata model → r' !! "times" = r !! "times")
            ∧ ("value" ∉ strata model → r' !! "value" = r !! "value").
Proof.
  intros Hmelt. unfold unpivot_outputs. rewrite Hmelt. simpl.
  destruct (unpivot_loop (strata model) (seq 0 (length (strata model) + 1))
              melted) as [out|e] eqn:Hloop; simpl; [|done].
  intros [= <-].
  apply (unpivot_loop_rows _ _ (column_name_in_range (strata model))) in Hloop.
  split.
  - rewrite length_fmap. symmetry. by eapply Forall2_length.
  - intros i r Hi.
    destruct (Forall2_lookup_l _ _ _ _ _ Hloop Hi) as (r1 & Hi1 & Hrun).
    destruct (unpivot_row_columns _ _ _ _ Hrun) as (Hkeep & Hnew & _).
    exists (delete "variable" r1). split_and!.
    + by rewrite list_lookup_fmap, Hi1.
    + by rewrite lookup_delete_eq.
    + rewrite lookup_delete_ne by done.
      apply (Hnew 0); [|done]. apply elem_of_seq. lia.
    + apply Forall_lookup. intros k s Hk Hne.
      rewrite lookup_delete_ne by done.
      apply (Hnew (S k)).
      * apply elem_of_seq. apply lookup_lt_Some in Hk. lia.
      * simpl. unfold index. by rewrite Hk.
    + intros Hno. rewrite lookup_delete_ne by done. apply Hkeep.
      intros n _ [?|?]%column_name_elem; done.
    + intros Hno. rewrite lookup_delete_ne by done. apply Hkeep.
      intros n _ [?|?]%column_name_elem; done.
Qed.

Lemma unpivot_outputs_shape_witness :
  let model := {| outputs := [[1; 2]; [3; 4]]%Q;
                  compartment_names := ["aXage_5"; "bXage_15"];
                  times := [0; 1]%Q;
                  strata := ["age"] |} in
  ∃ melted df, melt model = Ok melted ∧ unpivot_outputs model = Ok df
               ∧ length df = length melted.
Proof.
  intros model.
  assert (∃ melted, melt model = Ok melted) as [melted Hmelt]
    by (eexists; reflexivity).
  assert (∃ df, unpivot_outputs model = Ok df) as [df Hrun]
    by (eexists; reflexivity).
  exists melted, df. split_and!; [done.. |].
  by apply (unpivot_outputs_shape model melted df Hmelt Hrun).
Defined.

(** ** How the loop fails *)

Lemma for_each_Raise {A B} (f : A → result B) (l : list A) (e : exn) :
  for_each f l = Raise e → ∃ x, x ∈ l ∧ f x = Raise e.
Proof.
  induction l as [|x l IH]; simpl; [done|].
  destruct (f x) as [y|e'] eqn:Hx; simpl.
  - destruct (for_each f l) as [ys|e']; simpl; [done|].
    intros [= ->]. destruct IH as (x' & Hin & Hx'); [done|].
    exists x'. split; [by apply elem_of_cons; right | done].
  - intros [= ->]. exists x. split; [by apply elem_of_cons; left | done].
Qed.

Lemma for_each_cells {A B} (f : A → result B) (P : B → Prop) (l : list A)
    (ys : list B) :
  (∀ x y, f x = Ok y → P y) → for_each f l = Ok ys → Forall P ys.
Proof.
  intros Hf. revert ys. induction l as [|x l IH]; intros ys; simpl.
  - intros [= <-]. by apply Forall_nil.
  - destruct (f x) as [y|e] eqn:Hx; simpl; [|done].
    destruct (for_each f l) as [ys'|e]; simpl; [|done].
    intros [= <-]. apply Forall_cons. split; [by eapply Hf | by apply IH].
Qed.

Lemma split_variable_text (n : nat) (r : row) (c : cell) :
  split_variable n r = Ok c → is_text c.
Proof.
  unfold split_variable.
  destruct (getitem r "variable") as [v|]; simpl; [|done].
  destruct (as_str v) as [s|]; simpl; [|done].
  destruct (index (split "X" s) n) as [x|]; simpl; [|done].
  intros [= <-]. by exists x.
Qed.

Lemma split_variable_Raise (n : nat) (r : row) (e : exn) :
  has_name r → split_variable n r = Raise e → e = IndexError.
Proof.
  intros [s Hs]. unfold split_variable, getitem. rewrite Hs. simpl.
  unfold index. destruct (split "X" s !! n); simpl; [done|]. by intros [= <-].
Qed.

Lemma split_stratum_Raise (name : string) (r : row) (c : cell) (e : exn) :
  is_text c → split_stratum name (<[name := c]> r) = Raise e → e = IndexError.
Proof.
  intros [s ->]. unfold split_stratum, getitem. rewrite lookup_insert_eq.
  simpl. unfold index. destruct (split "_" s !! 1); simpl; [done|].
  by intros [= <-].
Qed.

Lemma elem_of_assign_column (name : string) (column : list cell)
    (df : dataframe) (r1 : row) :
  r1 ∈ assign_column name column df →
  ∃ r c, r ∈ df ∧ c ∈ column ∧ r1 = <[name := c]> r.
Proof.
  unfold assign_column. intros (i & Hi)%list_elem_of_lookup.
  apply lookup_zip_with_Some in Hi as (r & c & -> & Hr & Hc).
  exists r, c. split_and!; [by eapply list_elem_of_lookup_2.. | done].
Qed.

Lemma unpivot_step_Raise (strata : list string) (df : dataframe) (n : nat)
    (e : exn) :
  is_Ok (column_name strata n) → Forall has_name df →
  unpivot_step strata df n = Raise e → e = IndexError.
Proof.
  intros [name Hname] Hdf. unfold unpivot_step, apply_rows.
  rewrite Hname. simpl.
  destruct (for_each (split_variable n) df) as [column|e'] eqn:Hcol; simpl.
  - pose proof (for_each_cells _ is_text _ _ (split_variable_text n) Hcol)
      as Htext.
    destruct (decide (0 < n)); [|done].
    destruct (for_each (split_stratum name) (assign_column name column df))
      as [column2|e'] eqn:Hcol2; simpl; [done|].
    intros [= ->].
    apply for_each_Raise in Hcol2 as (r1 & Hin & Hr1).
    apply elem_of_assign_column in Hin as (r & c & _ & Hc & ->).
    eapply split_stratum_Raise; [|done].
    by apply (proj1 (Forall_forall _ _) Htext).
  - intros [= ->].
    apply for_each_Raise in Hcol as (r & Hin & Hr).
    eapply split_variable_Raise; [|done].
    by apply (proj1 (Forall_forall _ _) Hdf).
Qed.

Lemma unpivot_row_step_name (strata : list string) (r r' : row) (n : nat) :
  unpivot_row_step strata r n = Ok r' → has_name r → has_name r'.
Proof.
  intros (name & c & _ & ->)%unpivot_row_step_inv [s Hs].
  destruct (decide (name = "variable")) as [->|Hne].
  - exists c. by rewrite lookup_insert_eq.
  - exists s. by rewrite lookup_insert_ne.
Qed.

Lemma unpivot_loop_Raise (strata : list string) (ns : list nat) :
  Forall (λ n, is_Ok (column_name strata n)) ns →
  ∀ (df : dataframe) (e : exn),
    Forall has_name df →
    unpivot_loop strata ns df = Raise e → e = IndexError.
Proof.
  induction ns as [|n ns IH]; intros Hns df e Hdf; simpl; [done|].
  apply Forall_cons in Hns as [Hn Hns].
  destruct (unpivot_step strata df n) as [df1|e1] eqn:Hstep; simpl.
  - apply IH; [done|].
    apply (unpivot_step_rows _ _ Hn) in Hstep.
    apply Forall_forall. intros r1 (i & Hi)%list_elem_of_lookup.
    destruct (Forall2_lookup_r _ _ _ _ _ Hstep Hi) as (r & Hr & Hrun).
    eapply unpivot_row_step_name; [done|].
    apply (proj1 (Forall_forall _ _) Hdf). by eapply list_elem_of_lookup_2.
  - intros [= ->]. by eapply unpivot_step_Raise.
Qed.

Lemma melt_has_name (model : model_object) (melted : dataframe) :
  melt model = Ok melted → Forall has_name melted.
Proof.
  intros Hmelt. apply Forall_forall. intros r Hr.
  destruct (melt_variable model melted r Hmelt Hr) as (name & _ & Hv).
  by exists name.
Qed.



Lemma melt_row_of (model : model_object) (melted : dataframe)
    (name : string) :
  melt model = Ok melted →
  name ∈ compartment_names model → name ≠ "times" → times model ≠ [] →
  ∃ r, r ∈ melted ∧ r !! "variable" = Some (CStr name).
Proof.
  unfold melt. case_bool_decide; [|done]. intros [= <-] Hin Hne Htimes.
  apply list_elem_of_lookup in Hin as [j Hj].
  destruct (times model) as [|t ts] eqn:Ht; [done|].
  exists ({[ "times" := CNum t; "variable" := CStr name;
             "value" := CNum (default 0%Q (outputs model !! 0 ≫= (.!! j))) ]}).
  split; [|by vm_compute].
  apply list_elem_of_join. eexists. split.
  2:{ apply list_elem_of_lookup. exists j.
      rewrite list_lookup_imap, Hj. simpl. reflexivity. }
  rewrite decide_False by done. simpl. by apply elem_of_cons; left.
Qed.

(** X8: a model in which some compartment was left out of the
    stratification cannot be unpivoted: when at least one stratification
    was applied and the name of a compartment holds no delimiter [X],
    [unpivot_outputs] raises an [IndexError]. *)
Theorem unpivot_outputs_unstratified (model : model_object)
    (melted : dataframe) (name : string) :
  melt model = Ok melted →
  strata model ≠ [] → times model ≠ [] →
  name ∈ compartment_names model → name ≠ "times" →
  occurs "X" name = false →
  unpivot_outputs model = Raise IndexError.
Proof.
  intros Hmelt Hstrata Htimes Hin Hne HX.
  destruct (melt_row_of model melted name Hmelt Hin Hne Htimes)
    as (r & Hr & Hv).
  pose proof (melt_has_name model melted Hmelt) as Hnames.
  unfold unpivot_outputs. rewrite Hmelt. simpl.
  destruct (unpivot_loop (strata model) (seq 0 (length (strata model) + 1))
              melted) as [out|e] eqn:Hloop; simpl.
  - exfalso.
    apply (unpivot_loop_rows _ _ (column_name_in_range (strata model)))
      in Hloop.
    apply list_elem_of_lookup in Hr as [i Hi].
    destruct (Forall2_lookup_l _ _ _ _ _ Hloop Hi) as (r' & _ & Hrun).
    destruct (strata model) as [|s strata']; [done|].
    replace (length (s :: strata') + 1) with (S (S (length strata')))
      in Hrun by (simpl; lia).
    cbn [seq] in Hrun.
    apply unpivot_row_cons in Hrun as (r0 & Hstep0 & Hrun).
    apply unpivot_row_cons in Hrun as (r1 & Hstep1 & _).
    apply unpivot_row_step_inv in Hstep0 as (n0 & c0 & Hn0 & ->).
    simpl in Hn0. injection Hn0 as <-.
    unfold unpivot_row_step in Hstep1. simpl in Hstep1.
    unfold split_variable, getitem in Hstep1.
    rewrite lookup_insert_ne, Hv in Hstep1 by done. simpl in Hstep1.
    by rewrite split_without in Hstep1.
  - f_equal. eapply unpivot_loop_Raise;
      [apply column_name_in_range | exact Hnames | exact Hloop].
Qed.

Lemma unpivot_outputs_unstratified_witness :
  let model := {| outputs := [[1; 2; 3]]%Q;
                  compartment_names :=
                    ["susceptible"; "infectiousXstrain_ds";
                     "infectiousXstrain_mdr"];
                  times := [1800]%Q;
                  strata := ["strain"] |} in
  unpivot_outputs model = Raise IndexError.
Proof.
  intros model.
  assert (∃ melted, melt model = Ok melted) as [melted Hmelt]
    by (eexists; reflexivity).
  apply (unpivot_outputs_unstratified model melted "susceptible");
    [done | done | done | | done | done].
  apply elem_of_cons. by left.
Defined.

(** ** Stratum values with underscores *)

Lemma before_underscore_plain (v : string) :
  occurs "_" v = false → before_underscore v = v.
Proof. intros H. unfold before_underscore. by rewrite split_without. Qed.

Lemma split_piece_apart (sv : string * string) :
  occurs "_" sv.1 = false →
  index (split "_" (stratum_piece sv)) 1 = Ok (before_underscore sv.2).
Proof.
  intros H1. unfold stratum_piece. rewrite append_cons, append_nil_l.
  rewrite split_at_first by done. unfold index, before_underscore. simpl.
  pose proof (split_nonempty "_" sv.2) as Hne.
  by destruct (split "_" sv.2).
Qed.

Lemma split_compartment_name_apart (base : string)
    (applied : list (string * string)) :
  named_apart base applied →
  split "X" (compartment_name base applied)
  = base :: (stratum_piece <$> applied).
Proof.
  intros [Hb Hall]. rewrite compartment_name_append.
  apply split_suffixes; [done|].
  eapply Forall_impl; [exact Hall|]. intros sv [[H1 _] H2].
  unfold stratum_piece. by rewrite !occurs_append, H1, H2.
Qed.

Section OneRowApart.
Context (strata : list string) (base : string).
Context (applied : list (string * string)).
Context (Hstrata : applied.*1 = strata).
Context (Hnamed : named_apart base applied).
Context (Husable : usable_strata strata).

Lemma unpivot_row_step_base_apart (r : row) :
  r !! "variable" = Some (CStr (compartment_name base applied)) →
  unpivot_row_step strata r 0 = Ok (<["compartment" := CStr base]> r).
Proof.
  intros Hv. unfold unpivot_row_step, split_variable, getitem. simpl.
  rewrite Hv. simpl. by rewrite split_compartment_name_apart.
Qed.

Lemma unpivot_row_step_stratum_apart (r : row) (k : nat)
    (sv : string * string) :
  r !! "variable" = Some (CStr (compartment_name base applied)) →
  applied !! k = Some sv →
  unpivot_row_step strata r (S k)
  = Ok (<[sv.1 := CStr (before_underscore sv.2)]> r).
Proof.
  intros Hv Hk. unfold unpivot_row_step. simpl.
  unfold index at 1. rewrite (stratum_in_strata strata applied Hstrata k sv Hk).
  simpl. unfold split_variable, getitem. rewrite Hv. simpl.
  rewrite split_compartment_name_apart by done.
  unfold index at 1. simpl. rewrite list_lookup_fmap, Hk. simpl.
  unfold split_stratum, getitem. rewrite lookup_insert_eq. simpl.
  destruct Hnamed as [_ Hall].
  pose proof (proj1 (Forall_lookup _ _) Hall k sv Hk) as [[_ H1] _].
  rewrite split_piece_apart by done. simpl.
  by rewrite insert_insert_eq.
Qed.

Lemma unpivot_row_prefix_apart (r : row) (n : nat) :
  r !! "variable" = Some (CStr (compartment_name base applied)) →
  n ≤ length applied →
  ∃ r', unpivot_row strata (seq 0 (S n)) r = Ok r'
        ∧ r' !! "variable" = Some (CStr (compartment_name base applied))
        ∧ r' !! "compartment" = Some (CStr base)
        ∧ ∀ k sv, k < n → applied !! k = Some sv →
                  r' !! sv.1 = Some (CStr (before_underscore sv.2)).
Proof.
  intros Hv. induction n as [|n IH]; intros Hn.
  - exists (<["compartment" := CStr base]> r). simpl.
    rewrite unpivot_row_step_base_apart by done. simpl. split_and!.
    + done.
    + by rewrite lookup_insert_ne.
    + by rewrite lookup_insert_eq.
    + lia.
  - destruct IH as (r1 & Hrun & Hv1 & Hc1 & Hcols); [lia|].
    destruct (lookup_lt_is_Some_2 applied n) as [sv Hsv]; [lia|].
    destruct (stratum_not_reserved strata applied Hstrata Husable n sv Hsv)
      as [Hnc Hnv].
    exists (<[sv.1 := CStr (before_underscore sv.2)]> r1).
    rewrite seq_S, unpivot_row_app, Hrun. simpl.
    rewrite (unpivot_row_step_stratum_apart r1 n sv) by done. simpl.
    split_and!.
    + done.
    + by rewrite lookup_insert_ne.
    + by rewrite lookup_insert_ne.
    + intros k sv' Hk Hsv'. destruct (decide (k = n)) as [->|Hne].
      * rewrite Hsv in Hsv'. injection Hsv' as <-. by rewrite lookup_insert_eq.
      * rewrite lookup_insert_ne; [apply (Hcols k sv'); [lia | done]|].
        intros Heq. destruct Husable as (Hnd & _).
        apply Hne. symmetry.
        eapply (NoDup_lookup strata); [done | |].
        -- by apply (stratum_in_strata strata applied Hstrata).
        -- rewrite Heq. by apply (stratum_in_strata strata applied Hstrata).
Qed.

End OneRowApart.



End TbModelProps.

(** * Further properties of calibration.py *)

Module CalibrationProps.
Import Calibration CalibrationRun CalibrationFacts.

(** ** Unspecified standard deviations, once more *)

Lemma workout_target_Raise (w : world) (i : nat) (t : dict) (e : exn) :
  t !! "sd" = None → getitem t "values" ≫= np_mean = Raise e →
  workout_target (i, t) w = (Raise e, w).
Proof.
  intros Hsd He. unfold workout_target. rewrite Hsd.
  destruct (getitem t "values") as [values|e'] eqn:Hv; simpl in He.
  - erewrite eff_bind_Ok; [|reflexivity].
    erewrite eff_bind_Raise; [done|]. unfold lift. by rewrite He.
  - injection He as ->. by erewrite eff_bind_Raise; [|reflexivity].
Qed.

Lemma sd_worked_out_has_sd (t t' : dict) :
  sd_worked_out t t' → is_Some (t' !! "sd").
Proof.
  unfold sd_worked_out. destruct (t !! "sd") as [sd|] eqn:Hsd.
  - intros ->. by rewrite Hsd.
  - intros (values & m & _ & _ & H & _). by rewrite H.
Qed.

Lemma workout_world (w : world) :
  {| self := set_targeted_outputs (targeted_outputs (self w)) (self w);
     heap := heap w; constructed := constructed w |} = w.
Proof. destruct w as [c h ex]. by destruct c. Qed.

Lemma workout_run (c : Calibration) (h : store) (ex : list (exn * string))
    (targets : list dict) :
  workout_unspecified_sds
    {| self := set_targeted_outputs targets c; heap := h; constructed := ex |}
  = for_in (imap (λ i t, (length (@nil dict) + i, t)) targets) workout_target
      {| self := set_targeted_outputs ([] ++ targets) c;
         heap := h; constructed := ex |}.
Proof.
  unfold workout_unspecified_sds. erewrite eff_bind_Ok; [|reflexivity].
  reflexivity.
Qed.

(** The loop up to its first failing target. *)
Lemma workout_loop_Raise (c : Calibration) (h : store)
    (ex : list (exn * string)) (before : list dict) (t : dict)
    (after : list dict) (e : exn) :
  Forall (λ t, t !! "sd" = None → is_Ok (getitem t "values" ≫= np_mean))
         before →
  t !! "sd" = None → getitem t "values" ≫= np_mean = Raise e →
  ∀ done' : list dict,
  ∃ before' : list dict,
    for_in (imap (λ i t, (length done' + i, t)) (before ++ t :: after))
      workout_target
      {| self := set_targeted_outputs (done' ++ before ++ t :: after) c;
         heap := h; constructed := ex |}
    = (Raise e,
       {| self := set_targeted_outputs (done' ++ before' ++ t :: after) c;
          heap := h; constructed := ex |})
    ∧ Forall2 sd_worked_out before before'.
Proof.
  intros Hbefore Hsd He. induction Hbefore as [|u before Hu _ IH];
    intros done'.
  - exists []. split; [|constructor]. simpl.
    rewrite Nat.add_0_r.
    erewrite eff_bind_Raise; [done|]. by apply workout_target_Raise.
  - assert (∀ (v : dict) (l : list dict),
      for_in (imap ((λ i t, (length done' + i, t)) ∘ S) l) workout_target
        {| self := set_targeted_outputs (done' ++ v :: l) c;
           heap := h; constructed := ex |}
      = for_in (imap (λ i t, (length (done' ++ [v]) + i, t)) l)
          workout_target
          {| self := set_targeted_outputs ((done' ++ [v]) ++ l) c;
             heap := h; constructed := ex |}) as Hshift.
    { intros v l. rewrite <- (assoc_L (++)). simpl. f_equal.
      apply imap_ext. intros i x _. simpl. rewrite length_app. simpl.
      f_equal. lia. }
    rewrite <- app_comm_cons, imap_cons, for_in_cons, Nat.add_0_r.
    destruct (u !! "sd") as [sd|] eqn:Husd.
    + destruct (IH (done' ++ [u])) as (before' & Hrun & Hall).
      exists (u :: before'). split.
      * erewrite eff_bind_Ok; [|by apply workout_target_kept].
        rewrite Hshift, Hrun. by rewrite <- !(assoc_L (++)).
      * constructor; [|done]. unfold sd_worked_out. by rewrite Husd.
    + destruct (Hu eq_refl) as [m Hm]. unfold getitem in Hm.
      destruct (u !! "values") as [values|] eqn:Hvalues; [|done].
      simpl in Hm.
      destruct (IH (done' ++ [<["sd" := VNum (scale (0.5 / 4) m)]> u]))
        as (before' & Hrun & Hall).
      exists (<["sd" := VNum (scale (0.5 / 4) m)]> u :: before'). split.
      * erewrite eff_bind_Ok; [|by eapply workout_target_set].
        rewrite Hshift, Hrun. by rewrite <- !(assoc_L (++)).
      * constructor; [|done]. unfold sd_worked_out. rewrite Husd.
        exists values, m. split_and!; [done.. | by rewrite lookup_insert_eq |].
        intros k Hk. by rewrite lookup_insert_ne.
Qed.

(** Either every target can be given an [sd], or there is a first one
    that cannot. *)
Lemma workout_first_failure (targets : list dict) :
  Forall (λ t, t !! "sd" = None → is_Ok (getitem t "values" ≫= np_mean))
         targets
  ∨ ∃ before t after e,
      targets = before ++ t :: after
      ∧ Forall (λ t, t !! "sd" = None →
                     is_Ok (getitem t "values" ≫= np_mean)) before
      ∧ t !! "sd" = None ∧ getitem t "values" ≫= np_mean = Raise e.
Proof.
  induction targets as [|u targets IH]; [left; by apply Forall_nil|].
  destruct (u !! "sd") as [sd|] eqn:Hsd.
  - destruct IH as [IH|(before & t & after & e & -> & Hb & Ht & He)].
    + left. apply Forall_cons. split; [by rewrite Hsd | done].
    + right. exists (u :: before), t, after, e.
      split_and!; [done | | done..].
      apply Forall_cons. split; [by rewrite Hsd | done].
  - destruct (getitem u "values" ≫= np_mean) as [m|e] eqn:Hm.
    + destruct IH as [IH|(before & t & after & e & -> & Hb & Ht & He)].
      * left. apply Forall_cons. split; [by eexists | done].
      * right. exists (u :: before), t, after, e.
        split_and!; [done | | done..].
        apply Forall_cons. split; [by eexists | done].
    + right. exists [], u, targets, e.
      split_and!; [done | by apply Forall_nil | done..].
Qed.

(** X10: when [workout_unspecified_sds] returns, every targeted output
    has an [sd], and calling it again changes nothing. *)
Theorem workout_unspecified_sds_settles (w w' : world) :
  workout_unspecified_sds w = (Ok tt, w') →
  Forall (λ t, is_Some (t !! "sd")) (targeted_outputs (self w'))
  ∧ workout_unspecified_sds w' = (Ok tt, w').
Proof.
  rewrite <- (workout_world w). rewrite workout_run.
  destruct (workout_first_failure (targeted_outputs (self w)))
    as [Hok|(before & t & after & e & Heq & Hb & Ht & He)].
  - destruct (workout_loop (self w) (heap w) (constructed w) _ Hok [])
      as (targets' & Hrun & Hall).
    rewrite Hrun. intros [= <-]. simpl.
    assert (Forall (λ t, is_Some (t !! "sd")) targets') as Hsd.
    { apply Forall_forall. intros t' (i & Hi)%list_elem_of_lookup.
      destruct (Forall2_lookup_r _ _ _ _ _ Hall Hi) as (t & _ & Ht).
      by eapply sd_worked_out_has_sd. }
    split; [done|].
    rewrite workout_run.
    assert (Forall (λ t, t !! "sd" = None →
                         is_Ok (getitem t "values" ≫= np_mean)) targets')
      as Hok'.
    { eapply Forall_impl; [exact Hsd|]. intros t [sd Hs] Hn. congruence. }
    destruct (workout_loop (self w) (heap w) (constructed w) _ Hok' [])
      as (targets'' & Hrun' & Hall').
    rewrite Hrun'. do 3 f_equal.
    apply list_eq_Forall2.
    assert (Forall2 (λ t t'', sd_worked_out t t'' ∧ is_Some (t !! "sd"))
              targets' targets'') as Hboth.
    { apply Forall2_same_length_lookup. split; [by eapply Forall2_length|].
      intros i t t'' Hi Hi''. split.
      - destruct (Forall2_lookup_l _ _ _ _ _ Hall' Hi) as (x & Hx & Hrel).
        rewrite Hi'' in Hx. by injection Hx as <-.
      - apply (proj1 (Forall_forall _ _) Hsd).
        by eapply list_elem_of_lookup_2. }
    symmetry. eapply Forall2_impl; [exact Hboth|].
    intros t t'' [Hrel [sd Hs]]. unfold sd_worked_out in Hrel.
    by rewrite Hs in Hrel.
  - rewrite Heq.
    destruct (workout_loop_Raise (self w) (heap w) (constructed w)
                before t after e Hb Ht He []) as (before' & Hrun & _).
    by rewrite Hrun.
Qed.

Lemma workout_unspecified_sds_settles_witness :
  let targets : list dict :=
    [ {[ "output_key" := VStr "prevXinfectiousXamongXage_15";
         "years" := VList [2015; 2016]%Q;
         "values" := VList [0.005; 0.004]%Q ]};
      {[ "output_key" := VStr "prevXlatentXamongXage_5";
         "years" := VList [2014]%Q;
         "values" := VList [0.096]%Q;
         "sd" := VNum (Real 0.012) ]} ] in
  let w := fresh_world par_priors targets [] in
  ∃ w', workout_unspecified_sds w = (Ok tt, w')
        ∧ Forall (λ t, is_Some (t !! "sd")) (targeted_outputs (self w'))
        ∧ workout_unspecified_sds w' = (Ok tt, w').
Proof.
  intros targets w.
  destruct (workout_unspecified_sds w) as [r w'] eqn:Hrun.
  assert (r = Ok tt) as ->.
  { change r with (r, w').1. rewrite <- Hrun. by vm_compute. }
  exists w'. split; [done|].
  exact (workout_unspecified_sds_settles w w' Hrun).
Defined.

(** X11: [workout_unspecified_sds] is not atomic.  At the first target
    that has no [sd] and whose [values] are missing or cannot be averaged
    it raises the exception of that look-up ([KeyError]) or of [np.mean],
    leaving the targets before it already given their [sd] and that target
    and the later ones untouched. *)
Theorem workout_unspecified_sds_partial (w : world)
    (before : list dict) (t : dict) (after : list dict) (e : exn) :
  targeted_outputs (self w) = before ++ t :: after →
  Forall (λ t, t !! "sd" = None → is_Ok (getitem t "values" ≫= np_mean))
         before →
  t !! "sd" = None →
  getitem t "values" ≫= np_mean = Raise e →
  ∃ before' : list dict,
    workout_unspecified_sds w
    = (Raise e,
       {| self := set_targeted_outputs (before' ++ t :: after) (self w);
          heap := heap w; constructed := constructed w |})
    ∧ Forall2 sd_worked_out before before'
    ∧ (t !! "values" = None → e = KeyError).
Proof.
  intros Heq Hb Ht He.
  destruct (workout_loop_Raise (self w) (heap w) (constructed w)
              before t after e Hb Ht He []) as (before' & Hrun & Hall).
  exists before'. split_and!; [|done|].
  - rewrite <- (workout_world w) at 1. rewrite workout_run, Heq. exact Hrun.
  - intros Hv. unfold getitem in He. rewrite Hv in He. by injection He.
Qed.

Lemma workout_unspecified_sds_partial_witness :
  let t1 : dict := {[ "output_key" := VStr "a"; "values" := VList [8]%Q ]} in
  let t2 : dict := {[ "output_key" := VStr "b" ]} in
  let t3 : dict := {[ "output_key" := VStr "c"; "values" := VList [1]%Q ]} in
  let w := fresh_world par_priors [t1; t2; t3] [] in
  ∃ before' : list dict,
    workout_unspecified_sds w
    = (Raise KeyError,
       {| self := set_targeted_outputs (before' ++ [t2; t3]) (self w);
          heap := heap w; constructed := constructed w |})
    ∧ Forall2 sd_worked_out [t1] before'.
Proof.
  intros t1 t2 t3 w.
  destruct (workout_unspecified_sds_partial w [t1] t2 [t3] KeyError)
    as (before' & Hrun & Hall & _).
  - reflexivity.
  - apply Forall_cons. split; [intros _; by eexists | by apply Forall_nil].
  - by vm_compute.
  - by vm_compute.
  - by exists before'.
Defined.

(** ** The fitted parameters *)

Lemma match_uniform {A} (s : string) (a b : A) :
  s ≠ "uniform" →
  match s with
  | "uniform" => a
  | _ => b
  end = b.
Proof.
  intros Hs.
  do 7 (destruct s as [|[[] [] [] [] [] [] [] []] s]; try reflexivity).
  destruct s; [by destruct Hs | reflexivity].
Qed.

Section Priors.
Context {RV Theta : Type}.
Context (pm_Uniform : string → Q → Q → result RV).
Context (as_tensor_variable : list RV → result Theta).
Context (pm_DensityDist : Theta → result unit).

Lemma fitted_param_uniform (prior : dict) (rv : option RV) :
  fitted_param pm_Uniform prior = Ok rv →
  if is_uniform prior then is_Some rv else rv = None.
Proof.
  unfold fitted_param, is_uniform, getitem.
  destruct (prior !! "distribution") as [[x|s|l]|]; simpl;
    [by intros [= <-]| |by intros [= <-]|done].
  case_bool_decide as Hs.
  - subst s. simpl.
    destruct (param_name prior) as [name|]; simpl; [|done].
    destruct (prior !! "distri_params") as [v|]; simpl; [|done].
    destruct (as_list v) as [bounds|]; simpl; [|done].
    destruct (index bounds 0) as [lower|]; simpl; [|done].
    destruct (index bounds 1) as [upper|]; simpl; [|done].
    destruct (pm_Uniform name lower upper) as [x|]; simpl; [|done].
    intros [= <-]. by eexists.
  - rewrite match_uniform by done. by intros [= <-].
Qed.

Lemma fitted_params_count (priors : list dict) (rvs : list (option RV)) :
  for_each (fitted_param pm_Uniform) priors = Ok rvs →
  length (omap id rvs) = length (filter (λ p, is_uniform p) priors).
Proof.
  intros H%for_each_Forall2.
  induction H as [|prior rv priors rvs Hrv _ IH]; [done|].
  apply fitted_param_uniform in Hrv.
  destruct (is_uniform prior) eqn:Hu.
  - destruct Hrv as [x ->]. rewrite filter_cons_True by (rewrite Hu; exact I).
    change (omap id (Some x :: rvs)) with (x :: omap id rvs).
    rewrite !length_cons. by f_equal.
  - subst rv. rewrite filter_cons_False by (rewrite Hu; exact id). exact IH.
Qed.

(** X12: the vector that [run_fitting_algorithm] fits has one entry for
    each prior whose distribution is ['uniform'] and none for any other
    prior, which the loop passes over in silence: with such a prior among
    them the vector is shorter than the list of priors that
    [run_model_with_params] indexes it by. *)
Theorem model_setup_uniform_only (priors : list dict) (theta : Theta) :
  model_setup pm_Uniform as_tensor_variable pm_DensityDist priors = Ok theta →
  ∃ fitted : list RV,
    as_tensor_variable fitted = Ok theta
    ∧ length fitted = length (filter (λ p, is_uniform p) priors)
    ∧ (Exists (λ p, is_uniform p = false) priors →
       length fitted < length priors).
Proof.
  unfold model_setup.
  destruct (for_each (fitted_param pm_Uniform) priors) as [rvs|] eqn:Hrvs;
    simpl; [|done].
  destruct (as_tensor_variable (omap id rvs)) as [th|] eqn:Hth; simpl; [|done].
  destruct (pm_DensityDist th) as [[]|]; simpl; [|done].
  intros [= <-]. exists (omap id rvs).
  pose proof (fitted_params_count priors rvs Hrvs) as Hcount.
  split_and!; [done.. |].
  rewrite Hcount. clear. induction 1 as [p priors Hp|p priors _ IH].
  - rewrite filter_cons_False by (rewrite Hp; exact id).
    simpl. pose proof (length_filter (λ p, is_uniform p) priors). lia.
  - destruct (is_uniform p) eqn:Hu.
    + rewrite filter_cons_True by (rewrite Hu; exact I). simpl. lia.
    + rewrite filter_cons_False by (rewrite Hu; exact id). simpl. lia.
Qed.

End Priors.

Lemma model_setup_uniform_only_witness :
  let priors : list dict :=
    [ {[ "param_name" := VStr "start_time"; "distribution" := VStr "normal" ]};
      {[ "param_name" := VStr "contact_rate"; "distribution" := VStr "uniform";
         "distri_params" := VList [2; 100]%Q ]} ] in
  ∃ fitted : list string,
    fitted = ["contact_rate"]
    ∧ length fitted = length (filter (λ p, is_uniform p) priors)
    ∧ length fitted < length priors.
Proof.
  intros priors.
  destruct (model_setup_uniform_only (RV := string) (Theta := list string)
              (λ name _ _, Ok name) Ok (λ _, Ok tt) priors ["contact_rate"])
    as (fitted & Hf & Hlen & Hlt).
  - reflexivity.
  - injection Hf as Hf. exists fitted. split_and!; [done | done |].
    apply Hlt. apply Exists_cons. by left.
Defined.

(** ** The requests of the post-processing *)

Lemma requested_times_of_lookup (targets : list dict) :
  ∀ (rt0 rt : gmap string (list Q)) (key : string),
    requested_times_of targets rt0 = Ok rt →
    rt !! key = match last (omap (years_of key) targets) with
                | Some years => Some years
                | None => rt0 !! key
                end.
Proof.
  induction targets as [|output targets IH]; intros rt0 rt key; simpl.
  - by intros [= <-].
  - unfold add_requested_time.
    destruct (getitem output "years" ≫= as_list) as [years|] eqn:Hy;
      simpl; [|done].
    destruct (output_key output) as [k|] eqn:Hk; simpl; [|done].
    intros Hrun. rewrite (IH _ _ key Hrun).
    assert (years_of key output
            = if decide (k = key) then Some years else None) as Hyears
      by (unfold years_of; by rewrite Hy, Hk).
    change (omap (years_of key) (output :: targets))
      with (match years_of key output with
            | Some y => y :: omap (years_of key) targets
            | None => omap (years_of key) targets
            end).
    rewrite Hyears. destruct (decide (k = key)) as [->|Hne].
    + rewrite last_cons, lookup_insert_eq.
      unfold omap.
      by destruct (last (list_omap dict (list Q) (years_of key) targets)).
    + by rewrite lookup_insert_ne.
Qed.

(** X13: of several targeted outputs with the same [output_key], the
    [years] of the last one are the requested times of that key: the map
    built by the first call of [update_post_processing] keeps one entry
    per key. *)
Theorem requested_times_last_wins (targets : list dict)
    (rt : gmap string (list Q)) (key : string) :
  requested_times_of targets ∅ = Ok rt →
  rt !! key = last (omap (years_of key) targets).
Proof.
  intros Hrun. rewrite (requested_times_of_lookup _ _ _ key Hrun).
  rewrite lookup_empty. by destruct (last (omap (years_of key) targets)).
Qed.

Lemma requested_times_last_wins_witness :
  let targets : list dict :=
    [ {[ "output_key" := VStr "prev"; "years" := VList [2015; 2016]%Q ]};
      {[ "output_key" := VStr "inc"; "years" := VList [2010]%Q ]};
      {[ "output_key" := VStr "prev"; "years" := VList [2014]%Q ]} ] in
  ∃ rt, requested_times_of targets ∅ = Ok rt
        ∧ rt !! "prev" = Some [2014]%Q.
Proof.
  intros targets.
  assert (∃ rt, requested_times_of targets ∅ = Ok rt) as [rt Hrt]
    by (eexists; reflexivity).
  exists rt. split; [done|].
  by rewrite (requested_times_last_wins targets rt "prev" Hrt).
Defined.

(** ** Refreshing the post-processing object *)

Lemma read_post_processing_Ok (h : store) (l : loc) (p : PostProcessing) :
  h !! l = Some (OPostProcessing p) → read_post_processing l h = (Ok p, h).
Proof.
  intros H. unfold read_post_processing, read, mbind, eff_bind. by rewrite H.
Qed.

Section Refresh.
Context (extract :
  option (list (list Q)) → list string → list string →
  gmap string (list Q) → result (gmap string (list Q))).

Lemma generate_outputs_outcome (h : store) (pp : loc) (p : PostProcessing) :
  h !! pp = Some (OPostProcessing p) →
  ∃ r g,
    generate_outputs extract pp h
    = (r, <[pp := OPostProcessing {|
                     model := model p;
                     requested_outputs := requested_outputs p;
                     requested_times := requested_times p;
                     generated_outputs := g |}]> h)
    ∧ (∀ e, r = Raise e → g = generated_outputs p).
Proof.
  intros Hpp.
  assert (<[pp := OPostProcessing {|
                     model := model p;
                     requested_outputs := requested_outputs p;
                     requested_times := requested_times p;
                     generated_outputs := generated_outputs p |}]> h = h)
    as Hsame.
  { apply insert_id. rewrite Hpp. by destruct p. }
  unfold generate_outputs.
  erewrite eff_bind_Ok; [|by apply read_post_processing_Ok].
  pose proof (read_model_store h (model p)) as Hst.
  destruct (read_model (model p) h) as [[m|e] h1] eqn:Hreadm;
    simpl in Hst; subst h1.
  2:{ exists (Raise e), (generated_outputs p). rewrite Hsame.
      split; [|done]. by erewrite eff_bind_Raise. }
  erewrite eff_bind_Ok; [|done].
  pose proof (read_names_store h (compartment_names m)) as Hst.
  destruct (read_names (compartment_names m) h) as [[ns|e] h1] eqn:Hreadn;
    simpl in Hst; subst h1.
  2:{ exists (Raise e), (generated_outputs p). rewrite Hsame.
      split; [|done]. by erewrite eff_bind_Raise. }
  erewrite eff_bind_Ok; [|done].
  destruct (extract (outputs m) ns (requested_outputs p) (requested_times p))
    as [g|e].
  - exists (Ok tt), g. split; [|done].
    by erewrite eff_bind_Ok; [|reflexivity].
  - exists (Raise e), (generated_outputs p). rewrite Hsame.
    split; [|done]. by erewrite eff_bind_Raise; [|reflexivity].
Qed.

Lemma refresh_post_processing_outcome (h : store) (pp rm : loc)
    (p : PostProcessing) :
  h !! pp = Some (OPostProcessing p) →
  ∃ r g,
    refresh_post_processing extract pp rm h
    = (r, <[pp := OPostProcessing {|
                     model := rm;
                     requested_outputs := requested_outputs p;
                     requested_times := requested_times p;
                     generated_outputs := g |}]> h)
    ∧ (∀ e, r = Raise e → g = ∅).
Proof.
  intros Hpp. unfold refresh_post_processing.
  erewrite eff_bind_Ok; [|by apply read_post_processing_Ok].
  erewrite eff_bind_Ok; [|reflexivity].
  destruct (generate_outputs_outcome
              (<[pp := OPostProcessing {|
                         model := rm;
                         requested_outputs := requested_outputs p;
                         requested_times := requested_times p;
                         generated_outputs := ∅ |}]> h) pp _
              (lookup_insert_eq _ _ _)) as (r & g & Hrun & Hg).
  exists r, g. rewrite Hrun. simpl. by rewrite insert_insert_eq.
Qed.

(** X14: a later call of [update_post_processing] keeps the
    post-processing object it finds: the object is pointed at the running
    model, its requested outputs and times stay those of the first call
    whatever the targets are by now, only its generated outputs are
    replaced, and nothing else in the store or in the instance changes. *)
Theorem update_post_processing_refresh (w : world) (pp rm : loc)
    (p : PostProcessing) :
  post_processing (self w) = Some pp →
  heap w !! pp = Some (OPostProcessing p) →
  running_model (self w) = Some rm →
  ∃ r g,
    update_post_processing extract w
    = (r, {| self := self w;
             heap := <[pp := OPostProcessing {|
                               model := rm;
                               requested_outputs := requested_outputs p;
                               requested_times := requested_times p;
                               generated_outputs := g |}]> (heap w);
             constructed := constructed w |}).
Proof.
  intros Hpp Hobj Hrm.
  destruct (refresh_post_processing_outcome (heap w) pp rm p Hobj)
    as (r & g & Hrun & Hg).
  exists r, g.
  unfold update_post_processing.
  erewrite eff_bind_Ok; [|reflexivity]. rewrite Hpp.
  erewrite eff_bind_Ok.
  2:{ unfold the_running_model. erewrite eff_bind_Ok; [|reflexivity].
      by rewrite Hrm. }
  rewrite on_heap_run. by rewrite Hrun.
Qed.

End Refresh.

Lemma update_post_processing_refresh_witness :
  let p := {| model := 1%positive; requested_outputs := ["prev"];
              requested_times := {[ "prev" := [2015]%Q ]};
              generated_outputs := {[ "prev" := [0.5]%Q ]} |} in
  let w := {| self := set_post_processing (Some 6%positive)
                        (set_running_model (Some 1%positive)
                           (instance par_priors target_outputs []));
              heap := <[6%positive := OPostProcessing p]> built_store;
              constructed := [] |} in
  ∃ r g,
    update_post_processing (λ _ _ _ _, Raise KeyError) w
    = (r, {| self := self w;
             heap := <[6%positive := OPostProcessing {|
                         model := 1%positive;
                         requested_outputs := ["prev"];
                         requested_times := {[ "prev" := [2015]%Q ]};
                         generated_outputs := g |}]> (heap w);
             constructed := [] |}).
Proof.
  intros p w.
  apply (update_post_processing_refresh (λ _ _ _ _, Raise KeyError) w
           6%positive 1%positive p); reflexivity.
Defined.

(** ** A start time among the priors *)

Section StartTime.
Context (model_builder : option Q → eff store loc).
Context (integrate :
  list string → list (gmap string string) → gmap string Q →
  gmap string (Q → result Q) → result (list (list Q))).
Context (extract :
  option (list (list Q)) → list string → list string →
  gmap string (list Q) → result (gmap string (list Q))).

Lemma index_of_first (x : string) (l : list string) (i : nat) :
  l !! i = Some x → (∀ j, j < i → l !! j ≠ Some x) → index_of x l = Ok i.
Proof.
  intros Hi Hfirst. unfold index_of.
  assert (list_find (x =.) l = Some (i, x)) as ->; [|done].
  apply list_find_Some. split_and!; [done..|].
  intros j y Hj Hlt <-. by apply (Hfirst j).
Qed.

(** X15: with ['start_time'] among the priors, [run_model_with_params]
    takes the start time from the parameter vector at the position of the
    first prior of that name and hands it to the model builder.  A vector
    too short to have that position raises [IndexError] before anything
    is built or copied, and an exception of the builder ends the call
    with the instance as it was. *)
Theorem run_model_with_params_start_time (w : world) (params : list Q)
    (i : nat) :
  param_list (self w) !! i = Some "start_time" →
  (∀ j, j < i → param_list (self w) !! j ≠ Some "start_time") →
  (length params ≤ i →
     run_model_with_params model_builder integrate extract params w
     = (Raise IndexError, w))
  ∧ (∀ x e h',
       params !! i = Some x →
       model_builder (Some x) (heap w) = (Raise e, h') →
       run_model_with_params model_builder integrate extract params w
       = (Raise e, {| self := self w; heap := h';
                      constructed := constructed w |})).
Proof.
  intros Hi Hfirst.
  pose proof (index_of_first _ _ _ Hi Hfirst) as Hidx.
  assert ("start_time" ∈ param_list (self w)) as Hin
    by by eapply list_elem_of_lookup_2.
  split.
  - intros Hlen. unfold run_model_with_params.
    erewrite eff_bind_Ok; [|reflexivity].
    rewrite decide_True by done.
    erewrite eff_bind_Raise; [done|].
    erewrite eff_bind_Ok; [|unfold lift; by rewrite Hidx].
    erewrite eff_bind_Raise; [done|].
    unfold lift, index. by rewrite lookup_ge_None_2.
  - intros x e h' Hx Hbuild. unfold run_model_with_params.
    erewrite eff_bind_Ok; [|reflexivity].
    rewrite decide_True by done.
    erewrite eff_bind_Raise; [done|].
    erewrite eff_bind_Ok; [|unfold lift; by rewrite Hidx].
    erewrite eff_bind_Ok; [|unfold lift, index; by rewrite Hx].
    erewrite eff_bind_Raise; [done|].
    rewrite on_heap_run. by rewrite Hbuild.
Qed.

End StartTime.

Lemma run_model_with_params_start_time_witness :
  let w := fresh_world par_priors target_outputs
             ["contact_rate"; "late_progression"; "start_time"] in
  run_model_with_params (λ _, alloc (ONames []))
    (λ _ _ _ _, Ok []) (λ _ _ _ _, Ok ∅) [30; 0.002]%Q w
  = (Raise IndexError, w).
Proof.
  intros w.
  apply (run_model_with_params_start_time (λ _, alloc (ONames []))
           (λ _ _ _ _, Ok []) (λ _ _ _ _, Ok ∅) w [30; 0.002]%Q 2).
  - reflexivity.
  - intros j Hj. destruct j as [|[|j]]; [done | done | lia].
  - simpl. lia.
Defined.

(** ** The outcome of a run *)

Lemma world_eta (w : world) :
  {| self := self w; heap := heap w; constructed := constructed w |} = w.
Proof. by destruct w. Qed.

Lemma old_kept_refl (h : store) : old_kept h h.
Proof. by intros k _. Qed.

Lemma old_kept_dom (h0 h : store) (k : loc) :
  old_kept h0 h → k ∈ dom h0 → k ∈ dom h.
Proof.
  intros Hold Hk. apply elem_of_dom. rewrite (Hold k Hk).
  by apply elem_of_dom.
Qed.

Lemma old_kept_insert (h0 h : store) (l : loc) (o : obj) :
  l ∉ dom h0 → old_kept h0 h → old_kept h0 (<[l := o]> h).
Proof.
  intros Hl Hold k Hk. rewrite lookup_insert_ne; [by apply Hold|].
  by intros ->.
Qed.

Lemma old_kept_alloc (h0 h : store) (o : obj) :
  old_kept h0 h → old_kept h0 (<[fresh (dom h) := o]> h).
Proof.
  intros Hold. apply old_kept_insert; [|done].
  intros Hk. apply (is_fresh (dom h)). by eapply old_kept_dom.
Qed.

Lemma deepcopy_old_kept (h : store) (l : loc) (m : StratifiedModel)
    (names : list string) (fl : list (gmap string string))
    (ps : gmap string Q) (tv : gmap string (Q → result Q)) :
  h !! l = Some (OModel m) →
  h !! compartment_names m = Some (ONames names) →
  h !! flows m = Some (OFlows fl) →
  h !! parameters m = Some (OParameters ps) →
  h !! time_variants m = Some (OTimeVariants tv) →
  old_kept h (deepcopy l h).2.
Proof.
  intros Hm Hn Hf Hp Ht. unfold deepcopy.
  erewrite eff_bind_Ok; [|by apply read_model_Ok].
  erewrite eff_bind_Ok; [|by apply read_names_Ok].
  erewrite eff_bind_Ok; [|by apply read_flows_Ok].
  erewrite eff_bind_Ok; [|by apply read_parameters_Ok].
  erewrite eff_bind_Ok; [|by apply read_time_variants_Ok].
  do 4 (erewrite eff_bind_Ok; [|reflexivity]).
  simpl. do 5 apply old_kept_alloc. apply old_kept_refl.
Qed.

Section Outcome.
Context (model_builder : option Q → eff store loc).
Context (integrate :
  list string → list (gmap string string) → gmap string Q →
  gmap string (Q → result Q) → result (list (list Q))).
Context (extract :
  option (list (list Q)) → list string → list string →
  gmap string (list Q) → result (gmap string (list Q))).
Context (w0 : world) (rm : loc) (m' : StratifiedModel).
Context (names : list string) (fl : list (gmap string string)).
Context (tv : gmap string (Q → result Q)).
Context (Hnames : param_names (priors (self w0)) = Ok (param_list (self w0))).
Context (Hstart : "start_time" ∉ param_list (self w0)).

Lemma set_parameter_run (ps : gmap string Q) (h : store) (name : string)
    (x : Q) :
  running_copy (heap w0) rm m' names fl tv ps h →
  set_parameter rm name x h
  = (Ok tt, <[parameters m' := OParameters (<[name := x]> ps)]> h).
Proof.
  intros [_ _ _ [out Hrm] _ _ Hps _]. unfold set_parameter.
  erewrite eff_bind_Ok; [|by apply read_model_Ok].
  erewrite eff_bind_Ok; [|by apply read_parameters_Ok].
  reflexivity.
Qed.

Lemma override_step_exact (params : list Q) (ps : gmap string Q) (w : world)
    (i : nat) (prior : dict) (name : string) (x : Q) :
  running_world w0 rm m' names fl tv ps w →
  priors (self w) !! i = Some prior →
  param_name prior = Ok name →
  name ≠ "start_time" →
  params !! i = Some x →
  override params i w
  = (Ok tt, {| self := self w;
               heap := <[parameters m' := OParameters (<[name := x]> ps)]>
                         (heap w);
               constructed := constructed w |}).
Proof.
  intros Hw Hi Hname Hne Hx. pose proof Hw as (Hc & _).
  unfold override.
  erewrite eff_bind_Ok; [|reflexivity].
  erewrite eff_bind_Ok; [|unfold lift, index; by rewrite Hi].
  erewrite eff_bind_Ok; [|unfold lift; by rewrite Hname].
  rewrite decide_True by done.
  erewrite eff_bind_Ok; [|unfold lift, index; by rewrite Hx].
  erewrite eff_bind_Ok; [|by eapply the_running_model_run].
  rewrite on_heap_run. by erewrite set_parameter_run.
Qed.

Lemma override_loop_exact (params : list Q) (n : nat) :
  ∀ (k : nat) (ps : gmap string Q) (w : world),
    running_world w0 rm m' names fl tv ps w →
    k + n = length params →
    ∃ r h',
      for_in (seq k n) (override params) w
      = (r, {| self := self w; heap := h'; constructed := constructed w |})
      ∧ running_copy (heap w0) rm m' names fl tv
          (overridden (drop k (param_list (self w0))) (drop k params) ps) h'
      ∧ (old_kept (heap w0) (heap w) → old_kept (heap w0) h')
      ∧ (length params ≤ length (priors (self w0)) → r = Ok tt)
      ∧ (k ≤ length (priors (self w0)) →
         length (priors (self w0)) < length params → r = Raise IndexError).
Proof.
  pose proof (for_each_Forall2 _ _ _ Hnames) as Hall.
  pose proof (Forall2_length _ _ _ Hall) as Hlen.
  induction n as [|n IH]; intros k ps w Hw Hk.
  - exists (Ok tt), (heap w). rewrite world_eta. split_and!; [done | | done..|lia].
    rewrite (drop_ge params) by lia. unfold overridden.
    rewrite zip_with_nil_r. by destruct Hw.
  - change (seq k (S n)) with (k :: seq (S k) n). rewrite for_in_cons.
    pose proof Hw as (Hc & Hrm & Hbase & Hpriors & Hrest).
    destruct (priors (self w0) !! k) as [prior|] eqn:Hprior.
    + destruct (Forall2_lookup_l _ _ _ _ _ Hall Hprior)
        as (name & Hlist & Hname).
      destruct (lookup_lt_is_Some_2 params k) as [x Hx]; [lia|].
      assert (name ≠ "start_time") as Hne.
      { intros ->. by apply Hstart, (list_elem_of_lookup_2 _ k). }
      pose proof (override_step_exact params ps w k prior name x Hw
                    ltac:(by rewrite Hpriors) Hname Hne Hx) as Hrun.
      set (w1 := {| self := self w;
                    heap := <[parameters m' := OParameters (<[name := x]> ps)]>
                              (heap w);
                    constructed := constructed w |}) in *.
      assert (running_world w0 rm m' names fl tv (<[name := x]> ps) w1) as Hw1.
      { eapply running_world_heap; [done|].
        by apply running_copy_set_parameters with ps. }
      destruct (IH (S k) _ w1 Hw1 ltac:(lia))
        as (r & h' & Hloop & Hc' & Hold & Hok & Herr).
      exists r, h'. erewrite eff_bind_Ok; [|exact Hrun].
      split_and!.
      * exact Hloop.
      * rewrite (drop_S _ name k), (drop_S _ x k) by done. exact Hc'.
      * intros Hk0. apply Hold. simpl. apply old_kept_insert; [|done].
        by destruct (copy_fresh_parameters _ _ _ _ _ _ _ _ Hc).
      * done.
      * intros Hle Hlt. apply Herr; [|done].
        apply lookup_lt_Some in Hprior. lia.
    + exists (Raise IndexError), (heap w). rewrite world_eta.
      apply lookup_ge_None in Hprior.
      erewrite eff_bind_Raise;
        [|apply override_out_of_range; rewrite Hpriors;
          by apply lookup_ge_None].
      split_and!; [done | | done | lia | done].
      rewrite (drop_ge (param_list (self w0))) by lia. by unfold overridden.
Qed.

Lemma run_model_run (ps : gmap string Q) (h : store)
    (out : list (list Q)) :
  running_copy (heap w0) rm m' names fl tv ps h →
  integrate names fl ps tv = Ok out →
  run_model integrate rm h
  = (Ok tt, <[rm := OModel {| compartment_names := compartment_names m';
                              flows := flows m';
                              parameters := parameters m';
                              time_variants := time_variants m';
                              outputs := Some out |}]> h).
Proof.
  intros [_ _ _ [out0 Hrm] Hn Hf Hps Ht] Hout. unfold run_model.
  erewrite eff_bind_Ok; [|by apply read_model_Ok].
  erewrite eff_bind_Ok; [|by apply read_names_Ok].
  erewrite eff_bind_Ok; [|by apply read_flows_Ok].
  erewrite eff_bind_Ok; [|by apply read_parameters_Ok].
  erewrite eff_bind_Ok; [|by apply read_time_variants_Ok].
  simpl. rewrite Hout. by erewrite eff_bind_Ok; [|reflexivity].
Qed.

Lemma new_PostProcessing_run (h : store) (l : loc) (mm : StratifiedModel)
    (ns ro : list string) (rt g : gmap string (list Q)) :
  h !! l = Some (OModel mm) →
  h !! compartment_names mm = Some (ONames ns) →
  extract (outputs mm) ns ro rt = Ok g →
  new_PostProcessing extract l ro rt h
  = (Ok (fresh (dom h)),
     <[fresh (dom h) := OPostProcessing {|
                          model := l; requested_outputs := ro;
                          requested_times := rt;
                          generated_outputs := g |}]> h).
Proof.
  intros Hl Hn Hg. unfold new_PostProcessing.
  erewrite eff_bind_Ok; [|reflexivity].
  set (pp := fresh (dom h)).
  assert (l ≠ pp) as Hlp by (by eapply fresh_ne, dom_lookup).
  assert (compartment_names mm ≠ pp) as Hnp
    by (by eapply fresh_ne, dom_lookup).
  erewrite eff_bind_Ok; [reflexivity|].
  unfold generate_outputs.
  erewrite eff_bind_Ok;
    [|apply read_post_processing_Ok; by rewrite lookup_insert_eq].
  simpl.
  erewrite eff_bind_Ok; [|apply read_model_Ok; by rewrite lookup_insert_ne].
  erewrite eff_bind_Ok; [|apply read_names_Ok; by rewrite lookup_insert_ne].
  rewrite Hg. erewrite eff_bind_Ok; [|reflexivity].
  unfold write, modify. by rewrite insert_insert_eq.
Qed.

End Outcome.

(** X16: a parameter vector longer than the list of priors makes
    [run_model_with_params] raise [IndexError] at the first position
    without a prior.  By then the copy has been made and the overrides
    of all priors written into it, but the model is not run and the
    post-processing is not touched: every object the store held before
    the call is unchanged. *)
Theorem run_model_with_params_too_long
    (model_builder : option Q → eff store loc)
    (integrate :
       list string → list (gmap string string) → gmap string Q →
       gmap string (Q → result Q) → result (list (list Q)))
    (extract :
       option (list (list Q)) → list string → list string →
       gmap string (list Q) → result (gmap string (list Q)))
    (w : world) (params : list Q) (m : StratifiedModel)
    (names : list string) (fl : list (gmap string string))
    (ps : gmap string Q) (tv : gmap string (Q → result Q)) :
  "start_time" ∉ param_list (self w) →
  param_names (priors (self w)) = Ok (param_list (self w)) →
  heap w !! base_model (self w) = Some (OModel m) →
  heap w !! compartment_names m = Some (ONames names) →
  heap w !! flows m = Some (OFlows fl) →
  heap w !! parameters m = Some (OParameters ps) →
  heap w !! time_variants m = Some (OTimeVariants tv) →
  length (priors (self w)) < length params →
  ∃ rm m' h',
    run_model_with_params model_builder integrate extract params w
    = (Raise IndexError,
       {| self := set_running_model (Some rm) (self w); heap := h';
          constructed := constructed w |})
    ∧ old_kept (heap w) h'
    ∧ running_copy (heap w) rm m' names fl tv
        (overridden (param_list (self w)) params ps) h'.
Proof.
  intros Hstart Hnames Hm Hn Hf Hp Ht Hlong.
  destruct (deepcopy_copy (heap w) (base_model (self w)) m names fl ps tv)
    as (rm & m' & h1 & Hcopy & Hc1); [done..|].
  pose proof (deepcopy_old_kept (heap w) _ m names fl ps tv Hm Hn Hf Hp Ht)
    as Hold1.
  rewrite Hcopy in Hold1. simpl in Hold1.
  set (w1 := {| self := set_running_model (Some rm) (self w); heap := h1;
                constructed := constructed w |}).
  assert (running_world w rm m' names fl tv ps w1) as Hw1 by by split.
  destruct (override_loop_exact w rm m' names fl tv Hnames Hstart params
              (length params) 0 ps w1 Hw1 eq_refl)
    as (r & h' & Hloop & Hc' & Hold & _ & Herr).
  rewrite !drop_0 in Hc'.
  rewrite (Herr ltac:(lia) Hlong) in Hloop.
  exists rm, m', h'. split_and!; [|by apply Hold|done].
  unfold run_model_with_params.
  erewrite eff_bind_Ok; [|reflexivity].
  rewrite decide_False by done.
  erewrite (eff_bind_Ok _ _ w w1 tt).
  2:{ erewrite eff_bind_Ok; cycle 1.
      - rewrite on_heap_run. by rewrite Hcopy.
      - reflexivity. }
  by erewrite eff_bind_Raise; [|exact Hloop].
Qed.

Lemma run_model_with_params_too_long_witness :
  let w := fresh_world (take 2 par_priors) target_outputs
             ["contact_rate"; "late_progression"] in
  ∃ rm m' h',
    run_model_with_params (λ _, alloc (ONames []))
      (λ _ _ _ _, Ok []) (λ _ _ _ _, Ok ∅) [30; 0.002; 1800]%Q w
    = (Raise IndexError,
       {| self := set_running_model (Some rm) (self w); heap := h';
          constructed := constructed w |})
    ∧ old_kept (heap w) h'
    ∧ running_copy (heap w) rm m' TbModel.compartments TbModel.standard_flows
        ∅
        (overridden ["contact_rate"; "late_progression"]
           [30; 0.002; 1800]%Q
           {[ "contact_rate" := 20%Q; "case_detection" := 0%Q ]}) h'.
Proof.
  intros w.
  apply (run_model_with_params_too_long (λ _, alloc (ONames []))
           (λ _ _ _ _, Ok []) (λ _ _ _ _, Ok ∅) w [30; 0.002; 1800]%Q
           {| compartment_names := 2%positive; flows := 3%positive;
              parameters := 4%positive; time_variants := 5%positive;
              outputs := None |}).
  - apply (bool_decide_unpack _). by vm_compute.
  - reflexivity.
  - reflexivity.
  - reflexivity.
  - reflexivity.
  - reflexivity.
  - reflexivity.
  - simpl. lia.
Defined.

(** X17: the first run of a calibration, when nothing fails.  With no
    ['start_time'] among the priors, a parameter vector no longer than the
    priors and targets that have their [output_key] and [years],
    [run_model_with_params] returns: the model it ran is the copy with the
    overrides written in, the outputs it stored are those of integrating
    that copy, and the post-processing object it created points at the
    copy and holds what was extracted from those outputs. *)
Theorem run_model_with_params_first_run
    (model_builder : option Q → eff store loc)
    (integrate :
       list string → list (gmap string string) → gmap string Q →
       gmap string (Q → result Q) → result (list (list Q)))
    (extract :
       option (list (list Q)) → list string → list string →
       gmap string (list Q) → result (gmap string (list Q)))
    (w : world) (params : list Q) (m : StratifiedModel)
    (names : list string) (fl : list (gmap string string))
    (ps : gmap string Q) (tv : gmap string (Q → result Q))
    (out : list (list Q)) (ro : list string) (rt g : gmap string (list Q)) :
  "start_time" ∉ param_list (self w) →
  param_names (priors (self w)) = Ok (param_list (self w)) →
  heap w !! base_model (self w) = Some (OModel m) →
  heap w !! compartment_names m = Some (ONames names) →
  heap w !! flows m = Some (OFlows fl) →
  heap w !! parameters m = Some (OParameters ps) →
  heap w !! time_variants m = Some (OTimeVariants tv) →
  length params ≤ length (priors (self w)) →
  post_processing (self w) = None →
  for_each output_key (targeted_outputs (self w)) = Ok ro →
  requested_times_of (targeted_outputs (self w)) ∅ = Ok rt →
  integrate names fl (overridden (param_list (self w)) params ps) tv
    = Ok out →
  extract (Some out) names ro rt = Ok g →
  ∃ rm pp m' w',
    run_model_with_params model_builder integrate extract params w
    = (Ok tt, w')
    ∧ running_model (self w') = Some rm
    ∧ post_processing (self w') = Some pp
    ∧ rm ≠ base_model (self w) ∧ pp ≠ base_model (self w)
    ∧ heap w' !! rm = Some (OModel m') ∧ outputs m' = Some out
    ∧ heap w' !! parameters m'
      = Some (OParameters (overridden (param_list (self w)) params ps))
    ∧ heap w' !! pp
      = Some (OPostProcessing {| model := rm; requested_outputs := ro;
                                 requested_times := rt;
                                 generated_outputs := g |}).
Proof.
  intros Hstart Hnames Hm Hn Hf Hp Ht Hshort Hnone Hro Hrt Hout Hg.
  destruct (deepcopy_copy (heap w) (base_model (self w)) m names fl ps tv)
    as (rm & m' & h1 & Hcopy & Hc1); [done..|].
  set (w1 := {| self := set_running_model (Some rm) (self w); heap := h1;
                constructed := constructed w |}).
  assert (running_world w rm m' names fl tv ps w1) as Hw1 by by split.
  destruct (override_loop_exact w rm m' names fl tv Hnames Hstart params
              (length params) 0 ps w1 Hw1 eq_refl)
    as (r & h2 & Hloop & Hc2 & _ & Hok & _).
  rewrite !drop_0 in Hc2. rewrite (Hok Hshort) in Hloop.
  set (ps' := overridden (param_list (self w)) params ps) in *.
  set (m'' := {| compartment_names := compartment_names m';
                 flows := flows m'; parameters := parameters m';
                 time_variants := time_variants m';
                 outputs := Some out |}).
  set (h3 := <[rm := OModel m'']> h2).
  assert (running_copy (heap w) rm m' names fl tv ps' h3) as Hc3
    by by apply running_copy_set_outputs.
  set (pp := fresh (dom h3)).
  set (h4 := <[pp := OPostProcessing {| model := rm; requested_outputs := ro;
                                        requested_times := rt;
                                        generated_outputs := g |}]> h3).
  assert (h3 !! rm = Some (OModel m'')) as Hrm3 by apply lookup_insert_eq.
  assert (rm ≠ pp) as Hrp by (by eapply fresh_ne, dom_lookup).
  assert (parameters m' ≠ pp) as Hpp.
  { eapply fresh_ne, dom_lookup. by destruct Hc3. }
  assert (base_model (self w) ∈ dom h3) as Hbase3.
  { destruct Hc3 as [_ Hdom _ _ _ _ _ _]. by eapply Hdom, dom_lookup. }
  exists rm, pp, m'',
    {| self := set_post_processing (Some pp)
                 (set_running_model (Some rm) (self w));
       heap := h4; constructed := constructed w |}.
  split_and!.
  - unfold run_model_with_params.
    erewrite eff_bind_Ok; [|reflexivity].
    rewrite decide_False by done.
    erewrite (eff_bind_Ok _ _ w w1 tt).
    2:{ erewrite eff_bind_Ok; cycle 1.
        - rewrite on_heap_run. by rewrite Hcopy.
        - reflexivity. }
    erewrite eff_bind_Ok; [|exact Hloop].
    erewrite eff_bind_Ok.
    2:{ unfold the_running_model. by erewrite eff_bind_Ok; [|reflexivity]. }
    erewrite eff_bind_Ok.
    2:{ rewrite on_heap_run. simpl.
        by erewrite (run_model_run integrate w rm m' names fl tv ps' h2 out). }
    unfold update_post_processing.
    erewrite eff_bind_Ok; [|reflexivity]. simpl. rewrite Hnone.
    erewrite eff_bind_Ok; [|unfold lift; by rewrite Hro].
    erewrite eff_bind_Ok; [|unfold lift; by rewrite Hrt].
    erewrite eff_bind_Ok.
    2:{ unfold the_running_model. by erewrite eff_bind_Ok; [|reflexivity]. }
    erewrite eff_bind_Ok.
    2:{ rewrite on_heap_run. cbn [heap self constructed].
        erewrite (new_PostProcessing_run extract _ rm m'' names ro rt g);
          [reflexivity | exact Hrm3 | | exact Hg].
        by destruct Hc3. }
    reflexivity.
  - done.
  - done.
  - intros Heq. destruct Hc3 as [_ _ Hfresh _ _ _ _ _].
    apply Forall_cons in Hfresh as [Hfresh _]. apply Hfresh.
    rewrite Heq. by eapply dom_lookup.
  - intros Heq. apply (is_fresh (dom h3)). fold pp. by rewrite Heq.
  - simpl. unfold h4. by rewrite lookup_insert_ne.
  - done.
  - simpl. unfold h4. rewrite lookup_insert_ne by done. by destruct Hc3.
  - simpl. unfold h4. by rewrite lookup_insert_eq.
Qed.

Lemma run_model_with_params_first_run_witness :
  let w := fresh_world (take 2 par_priors) target_outputs
             ["contact_rate"; "late_progression"] in
  ∃ rm pp m' w',
    run_model_with_params (λ _, alloc (ONames []))
      (λ _ _ ps _, Ok [[default 0%Q (ps !! "contact_rate")]])
      (λ o _ _ _, Ok {[ "prev" := default [] (o ≫= head) ]})
      [30]%Q w
    = (Ok tt, w')
    ∧ running_model (self w') = Some rm
    ∧ post_processing (self w') = Some pp
    ∧ heap w' !! rm = Some (OModel m') ∧ outputs m' = Some [[30%Q]]
    ∧ ∃ p, heap w' !! pp = Some (OPostProcessing p)
           ∧ generated_outputs p = {[ "prev" := [30%Q] ]}.
Proof.
  intros w.
  destruct (run_model_with_params_first_run (λ _, alloc (ONames []))
              (λ _ _ ps _, Ok [[default 0%Q (ps !! "contact_rate")]])
              (λ o _ _ _, Ok {[ "prev" := default [] (o ≫= head) ]})
              w [30]%Q
              {| compartment_names := 2%positive; flows := 3%positive;
                 parameters := 4%positive; time_variants := 5%positive;
                 outputs := None |}
              TbModel.compartments TbModel.standard_flows
              {[ "contact_rate" := 20%Q; "case_detection" := 0%Q ]} ∅
              [[30%Q]]
              ["prevXinfectiousXamongXage_15"; "prevXlatentXamongXage_5"]
              {[ "prevXinfectiousXamongXage_15" := [2015; 2016]%Q;
                 "prevXlatentXamongXage_5" := [2014]%Q ]}
              {[ "prev" := [30%Q] ]})
    as (rm & pp & m' & w' & Hrun & Hrm & Hpp & _ & _ & Hm' & Hout & _ & Hobj).
  - apply (bool_decide_unpack _). by vm_compute.
  - reflexivity.
  - reflexivity.
  - reflexivity.
  - reflexivity.
  - reflexivity.
  - reflexivity.
  - simpl. lia.
  - reflexivity.
  - reflexivity.
  - reflexivity.
  - reflexivity.
  - reflexivity.
  - exists rm, pp, m', w'. split_and!; [done..|]. by eexists.
Defined.

(** ** The dispatch on the run mode *)

Section Dispatch.
Context {RV Theta : Type}.
Context (pm_Uniform : string → Q → Q → result RV).
Context (as_tensor_variable : list RV → result Theta).
Context (pm_DensityDist : Theta → result unit).

(** X18: what [run_fitting_algorithm] does in its supported modes.  An
    exception of the model set-up ends the call in every mode, before any
    fitting and before any [ValueError] is constructed.  In mode ['mle']
    the call is the search for the maximum followed by the assignment of
    [mle_estimates], and it does not depend on the sampler; in mode
    ['mcmc'] with method ['Metropolis'] or ['DEMetropolis'] it is the
    sampling with that step method, [n_iterations] draws and [n_burned]
    tuning steps, followed by the assignment of [mcmc_trace], and it does
    not depend on the search. *)
Theorem run_fitting_algorithm_modes
    (pm_find_MAP pm_find_MAP' : Theta → eff world (gmap string Q))
    (pm_sample pm_sample' :
       nat → step_method → nat → nat → bool → Theta →
       eff world (list (gmap string Q)))
    (w : world) (run_mode mcmc_method : string)
    (n_iterations n_burned n_chains : nat) (parallel : bool) :
  (∀ e, model_setup pm_Uniform as_tensor_variable pm_DensityDist
          (priors (self w)) = Raise e →
     run_fitting_algorithm pm_Uniform as_tensor_variable pm_DensityDist
       pm_find_MAP pm_sample run_mode mcmc_method
       n_iterations n_burned n_chains parallel w
     = (Raise e, w))
  ∧ (∀ theta, model_setup pm_Uniform as_tensor_variable pm_DensityDist
                (priors (self w)) = Ok theta →
     run_fitting_algorithm pm_Uniform as_tensor_variable pm_DensityDist
       pm_find_MAP pm_sample "mle" mcmc_method
       n_iterations n_burned n_chains parallel w
     = (pm_find_MAP theta ≫= λ estimates,
          on_self (set_mle_estimates estimates)) w
     ∧ run_fitting_algorithm pm_Uniform as_tensor_variable pm_DensityDist
         pm_find_MAP pm_sample "mle" mcmc_method
         n_iterations n_burned n_chains parallel w
       = run_fitting_algorithm pm_Uniform as_tensor_variable pm_DensityDist
           pm_find_MAP pm_sample' "mle" mcmc_method
           n_iterations n_burned n_chains parallel w
     ∧ ∀ step,
         (mcmc_method = "Metropolis" ∧ step = Metropolis)
         ∨ (mcmc_method = "DEMetropolis" ∧ step = DEMetropolis) →
         run_fitting_algorithm pm_Uniform as_tensor_variable pm_DensityDist
           pm_find_MAP pm_sample "mcmc" mcmc_method
           n_iterations n_burned n_chains parallel w
         = (pm_sample n_iterations step n_burned n_chains parallel theta
              ≫= λ trace, on_self (set_mcmc_trace (Some trace))) w
         ∧ run_fitting_algorithm pm_Uniform as_tensor_variable
             pm_DensityDist pm_find_MAP pm_sample "mcmc" mcmc_method
             n_iterations n_burned n_chains parallel w
           = run_fitting_algorithm pm_Uniform as_tensor_variable
               pm_DensityDist pm_find_MAP' pm_sample "mcmc" mcmc_method
               n_iterations n_burned n_chains parallel w).
Proof.
  split.
  - intros e He. unfold run_fitting_algorithm.
    erewrite eff_bind_Ok; [|reflexivity].
    erewrite eff_bind_Raise; [done|]. unfold lift. by rewrite He.
  - intros theta Hsetup.
    assert (∀ find sample mode,
      run_fitting_algorithm pm_Uniform as_tensor_variable pm_DensityDist
        find sample mode mcmc_method n_iterations n_burned n_chains parallel w
      = (if decide (mode = "mle") then
           find theta ≫= λ estimates, on_self (set_mle_estimates estimates)
         else if decide (mode = "mcmc") then
           (if decide (mcmc_method = "Metropolis") then mret (Some Metropolis)
            else if decide (mcmc_method = "DEMetropolis")
                 then mret (Some DEMetropolis)
            else construct ValueError unsupported_mcmc_mode;; mret None)
           ≫= λ mcmc_step, local mcmc_step
           ≫= λ step, sample n_iterations step n_burned n_chains parallel theta
           ≫= λ trace, on_self (set_mcmc_trace (Some trace))
         else construct ValueError unsupported_run_mode) w) as Hrun.
    { intros find sample mode. unfold run_fitting_algorithm.
      erewrite eff_bind_Ok; [|reflexivity].
      erewrite eff_bind_Ok; [|unfold lift; by rewrite Hsetup].
      reflexivity. }
    split_and!.
    + by rewrite Hrun.
    + by rewrite !Hrun.
    + intros step Hstep.
      assert (∀ find,
        run_fitting_algorithm pm_Uniform as_tensor_variable pm_DensityDist
          find pm_sample "mcmc" mcmc_method
          n_iterations n_burned n_chains parallel w
        = (pm_sample n_iterations step n_burned n_chains parallel theta
             ≫= λ trace, on_self (set_mcmc_trace (Some trace))) w) as Hmcmc.
      { intros find. rewrite Hrun. simpl.
        destruct Hstep as [[-> ->]|[-> ->]]; simpl.
        - erewrite eff_bind_Ok; [|reflexivity].
          by erewrite eff_bind_Ok; [|reflexivity].
        - erewrite eff_bind_Ok; [|reflexivity].
          by erewrite eff_bind_Ok; [|reflexivity]. }
      split; [apply Hmcmc | by rewrite !Hmcmc].
Qed.

End Dispatch.

Lemma run_fitting_algorithm_modes_witness :
  let w := fresh_world
             [ {[ "param_name" := VStr "contact_rate" ]} ] target_outputs
             ["contact_rate"] in
  run_fitting_algorithm (RV := string) (Theta := list string)
    (λ name _ _, Ok name) Ok (λ _, Ok tt)
    (λ _, mret ∅) (λ _ _ _ _ _ _, mret [])
    "nuts" "Metropolis" 100 10 1 true w
  = (Raise KeyError, w).
Proof.
  intros w.
  apply (run_fitting_algorithm_modes (RV := string) (Theta := list string)
           (λ name _ _, Ok name) Ok (λ _, Ok tt)
           (λ _, mret ∅) (λ _, mret ∅)
           (λ _ _ _ _ _ _, mret []) (λ _ _ _ _ _ _, mret [])
           w "nuts" "Metropolis" 100 10 1 true).
  reflexivity.
Defined.

End CalibrationProps.
